(** * EC2 sandbox: command dispatch, result retrieval and configuration

    A shallow embedding of [ec2sandbox/_unpack_tags.py], [ec2sandbox/schema.py]
    and [ec2sandbox/_ec2_sandbox_environment.py].

    Python [str] values are held as Rocq strings carrying their UTF-8
    encoding, [bytes] values as lists of bytes, [int] values as [Z].  Calls to
    the AWS services (boto3 clients), to the process environment and to the
    clock are requests answered by a world the code does not control; every
    run of a method yields its outcome, the world it leaves behind and the
    trace of requests it made with their replies. *)

From Stdlib Require Import ZArith List String Ascii Bool Lia DecimalString.
From Stdlib.Strings Require Import Byte.
From stdpp Require Import base option list gmap strings.

Import ListNotations.
Local Open Scope string_scope.
Local Open Scope Z_scope.
Local Open Scope list_scope.

(** ** Python strings *)

Module Py.

(** [sep.join(parts)] *)
Definition join (sep : string) (parts : list string) : string :=
  String.concat sep parts.

(** [s.split(sep)] for a separator of one character: the pieces between the
    separators, the empty pieces included; never the empty list. *)
Fixpoint split (sep : ascii) (s : string) : list string :=
  match s with
  | EmptyString => [EmptyString]
  | String c rest =>
      if Ascii.eqb c sep then EmptyString :: split sep rest
      else match split sep rest with
           | piece :: pieces => String c piece :: pieces
           | [] => [String c EmptyString]
           end
  end.

(** [s.startswith(prefix)] *)
Definition startswith (s prefix : string) : bool := String.prefix prefix s.

(** [needle in haystack] *)
Fixpoint contains (haystack needle : string) : bool :=
  String.prefix needle haystack
  || match haystack with
     | EmptyString => false
     | String _ rest => contains rest needle
     end.

(** [c in s] for one character *)
Fixpoint has_char (c : ascii) (s : string) : bool :=
  match s with
  | EmptyString => false
  | String d rest => Ascii.eqb d c || has_char c rest
  end.

(** [str(n)] for an [int] *)
Definition str_of_int (n : Z) : string := NilZero.string_of_int (Z.to_int n).

(** [s.replace(old, new)] for [old] of one character *)
Fixpoint replace_char (old : ascii) (new : string) (s : string) : string :=
  match s with
  | EmptyString => EmptyString
  | String c rest =>
      (if Ascii.eqb c old then new else String c EmptyString)
      +:+ replace_char old new rest
  end.

(** [x or default] on an optional [int]: [None] and [0] are falsy. *)
Definition int_or (x : option Z) (default : Z) : Z :=
  match x with
  | Some n => if n =? 0 then default else n
  | None => default
  end.

End Py.

(** ** Exceptions *)

(** The [last_response] of a botocore [WaiterError]: the relay's last answer
    to the status poll, of which the code reads two keys. *)
Record LastResponse := {
  lr_Status : option string;
  lr_ResponseCode : option Z;
}.

(** The exceptions the modelled code raises, catches or lets through.  A
    botocore [ClientError] carries [response.Error.Code] when the response
    has one; the S3 client's [NoSuchKey] is the [ClientError] subclass of the
    code [NoSuchKey]. *)
Inductive exn :=
| Exception (msg : string)
| ValueError (msg : string)
| KeyError (key : string)
| TimeoutError (msg : string)
| PermissionError (msg : string)
| FileNotFoundError (msg : string)
| IsADirectoryError (errno : Z) (strerror filename : string)
| UnicodeDecodeError
| OutputLimitExceededError (limit_str : string) (truncated_output : option string)
| ClientError (code : option string)
| WaiterError (last_response : LastResponse)
| RetryError (last_attempt : exn)
| ValidationError (field : string).

Definition NoSuchKey : exn := ClientError (Some "NoSuchKey").

Definition is_NoSuchKey (e : exn) : bool :=
  match e with
  | ClientError (Some code) => String.eqb code "NoSuchKey"
  | _ => false
  end.

(** ** [_unpack_tags.py] *)

Definition tags_format_error : exn :=
  ValueError
    "Tags must be in the format 'key1=value1;key2=value2', but instead got {tags}".

(** The body of the [for tag in tags_list] loop: [key, value = tag.split("=")]
    raises [ValueError] unless the split has exactly two pieces. *)
Fixpoint unpack_loop (tags_list : list string)
    (tags_unpacked : list (string * string)) : exn + list (string * string) :=
  match tags_list with
  | [] => inr tags_unpacked
  | tag :: rest =>
      match Py.split "=" tag with
      | [key; value] => unpack_loop rest (tags_unpacked ++ [(key, value)])
      | [] | [_] => inl (ValueError "not enough values to unpack")
      | _ => inl (ValueError "too many values to unpack")
      end
  end.

Definition unpack_tags (tags : option string) : exn + list (string * string) :=
  match tags with
  | None | Some EmptyString => inr []
  | Some tags =>
      match unpack_loop (Py.split ";" tags) [] with
      | inl (ValueError _) => inl tags_format_error
      | other => other
      end
  end.

(** One AWS tag specification, as [convert_tags_for_aws_interface] builds it. *)
Record TagSpecification := {
  ResourceType : string;
  Tags : list (string * string);   (* [{"Key": k, "Value": v}] *)
}.

Definition convert_tags_for_aws_interface (resource_type : string)
    (tags_unpacked : list (string * string)) : list TagSpecification :=
  [ {| ResourceType := resource_type; Tags := tags_unpacked |} ].

(** The text form the settings document for tags, [key1=value1;key2=value2]:
    the encoding [unpack_tags] reads back. *)
Definition format_tag (kv : string * string) : string :=
  fst kv +:+ "=" +:+ snd kv.

Definition format_tags (tags : list (string * string)) : string :=
  Py.join ";" (map format_tag tags).

(** A key or value that the text form can carry: no separator inside. *)
Definition plain (s : string) : Prop :=
  Py.has_char ";" s = false /\ Py.has_char "=" s = false.

Definition plain_pair (kv : string * string) : Prop :=
  plain (fst kv) /\ plain (snd kv).

(** ** [schema.py]: the configuration value *)

Record Ec2SandboxEnvironmentConfig := {
  region : string;
  vpc_id : string;
  security_group_id : string;
  subnet_id : string;
  ami_id : string;
  instance_type : string;
  instance_profile : string;
  s3_bucket : string;
  s3_key_prefix : string;
  extra_tags : list (string * string);
}.

(** [_Ec2ExistingInfraSettings]: what the environment and the [.env] file
    supply, every field optional. *)
Record _Ec2ExistingInfraSettings := {
  st_region : option string;
  st_vpc_id : option string;
  st_security_group_id : option string;
  st_subnet_id : option string;
  st_ami_id : option string;
  st_instance_type : option string;
  st_instance_profile : option string;
  st_s3_bucket : option string;
  st_s3_key_prefix : option string;
  st_extra_tags_str : option string;
}.

(** The [params] dictionary of [from_settings], and the dictionary
    [config_deserialize] receives: a string field may hold [None] (or be
    absent, which the constructor treats alike), the tags may be absent. *)
Record ConfigParams := {
  p_region : option string;
  p_vpc_id : option string;
  p_security_group_id : option string;
  p_subnet_id : option string;
  p_ami_id : option string;
  p_instance_type : option string;
  p_instance_profile : option string;
  p_s3_bucket : option string;
  p_s3_key_prefix : option string;
  p_extra_tags : option (list (string * string));
}.

(** The keyword arguments of [from_settings]: for each field, absent
    ([None]) or a value, which for a string field may itself be [None]. *)
Record ConfigOverrides := {
  kw_region : option (option string);
  kw_vpc_id : option (option string);
  kw_security_group_id : option (option string);
  kw_subnet_id : option (option string);
  kw_ami_id : option (option string);
  kw_instance_type : option (option string);
  kw_instance_profile : option (option string);
  kw_s3_bucket : option (option string);
  kw_s3_key_prefix : option (option string);
  kw_extra_tags : option (list (string * string));
}.

(** ** Replies of the services *)

Definition bytes := list byte.

Record Parameters := {
  commands : list string;
  executionTimeout : list string;
}.

(** What [get_command_invocation] answers; the code reads [ResponseCode]. *)
Record CommandInvocation := { ResponseCode : option Z }.

Record InstanceInformation := {
  ii_InstanceId : string;
  PingStatus : string;
}.

Record HeadObjectOutput := { ContentLength : option Z }.

(** What [list_objects_v2] answers: the [Key] of each entry of [Contents],
    when the answer has that entry. *)
Record ListObjectsV2Output := { Contents : option (list string) }.

Record Instance := {
  InstanceId : string;
  inst_Tags : option (list (string * string));
}.

Record Reservation := { Instances : list Instance }.

(** ** Requests to the outside world

    One constructor per call the code makes, indexed by the type of what the
    call returns when it does not raise. *)
Inductive request : Type -> Type :=
(* boto3 SSM client *)
| send_command (InstanceIds : list string) (DocumentName : string)
    (Parameters_ : Parameters) (OutputS3BucketName OutputS3KeyPrefix : string)
    : request string
| wait_command_executed (CommandId InstanceId_ : string) (Delay MaxAttempts : Z)
    : request unit
| get_command_invocation (CommandId InstanceId_ : string) : request CommandInvocation
| cancel_command (CommandId : string) (InstanceIds : list string) : request unit
| describe_instance_information (region_name : string) (InstanceIds : list string)
    : request (list InstanceInformation)
| get_parameters (region_name : string) (Names : list string) : request (list string)
(* boto3 S3 client; [Range := Some (first, last)] is the header
   [bytes={first}-{last}] *)
| head_object (Bucket Key : string) : request HeadObjectOutput
| get_object (Bucket Key : string) (Range : option (Z * Z)) : request bytes
| delete_object (Bucket Key : string) : request unit
| list_objects_v2 (Bucket Prefix : string) : request ListObjectsV2Output
| delete_objects (Bucket : string) (Objects : list string) : request unit
| generate_presigned_url (ClientMethod Bucket Key : string) (ExpiresIn : Z)
    : request string
(* boto3 EC2 client *)
| describe_instances (Filters : list (string * list string))
    : request (list Reservation)
| terminate_instances (InstanceIds : list string) : request unit
(* the process: random, datetime, sys, os, rich, pydantic-settings *)
| random_choices (population : string) (k : Z) : request string
| datetime_now_isoformat : request string
| stdin_isatty : request bool
| environ_contains (name : string) : request bool
| getenv (name : string) : request (option string)
| confirm_ask (prompt : string) : request bool
| load_settings : request _Ec2ExistingInfraSettings.

Inductive log_level := DEBUG | INFO | WARNING.

(** A row of the table [cli_cleanup] prints, or a line of text. *)
Inductive renderable :=
| Text (s : string)
| Table (columns : list string) (rows : list (string * string)).

(** What a run leaves in its trace: a request with its reply, a log record
    (the message, and the exception the message formats, left unrendered), a
    console print, a sleep between two attempts. *)
Inductive event :=
| Call {T : Type} (r : request T) (reply : exn + T)
| Logged (level : log_level) (msg : string) (exc : option exn)
| Printed (what : renderable)
| Slept (seconds : Z).

(** A world answers requests; answering may change it. *)
Class World (W : Type) := respond : forall T : Type, request T -> W -> (exn + T) * W.
Arguments respond {W _ T} r w.

(** ** The monad of runs: outcome, world left behind, trace *)

Inductive outcome (A : Type) :=
| Return (a : A)
| Raise (e : exn).
Arguments Return {A} a.
Arguments Raise {A} e.

Definition M (W A : Type) : Type := W -> outcome A * W * list event.

Section Monad.
Context {W : Type} `{World W}.

Definition ret {A} (a : A) : M W A := fun w => (Return a, w, []).

Definition raise {A} (e : exn) : M W A := fun w => (Raise e, w, []).

Definition bind {A B} (m : M W A) (k : A -> M W B) : M W B :=
  fun w =>
    match m w with
    | (Return a, w1, t1) =>
        match k a w1 with (o, w2, t2) => (o, w2, t1 ++ t2) end
    | (Raise e, w1, t1) => (Raise e, w1, t1)
    end.

(** [try: m  except ...: handler]: [handler e] is [None] when no [except]
    clause matches [e], which then propagates. *)
Definition try_except {A} (m : M W A) (handler : exn -> option (M W A)) : M W A :=
  fun w =>
    match m w with
    | (Raise e, w1, t1) =>
        match handler e with
        | Some k => match k w1 with (o, w2, t2) => (o, w2, t1 ++ t2) end
        | None => (Raise e, w1, t1)
        end
    | returned => returned
    end.

Definition call {T} (r : request T) : M W T :=
  fun w =>
    match respond r w with
    | (inr v, w1) => (Return v, w1, [Call r (inr v)])
    | (inl e, w1) => (Raise e, w1, [Call r (inl e)])
    end.

Definition emit (ev : event) : M W unit := fun w => (Return tt, w, [ev]).

Definition lift {A} (r : exn + A) : M W A :=
  match r with inr a => ret a | inl e => raise e end.
End Monad.

Declare Scope run_scope.
Delimit Scope run_scope with run.
Notation "x <- m ;; k" := (bind m (fun x => k))
  (at level 20, m at level 99, k at level 200, only parsing) : run_scope.
Notation "' pat <- m ;; k" := (bind m (fun pat => k))
  (at level 20, pat pattern, m at level 99, k at level 200, only parsing) : run_scope.
Notation "m ;; k" := (bind m (fun _ => k))
  (at level 100, k at level 200, right associativity, only parsing) : run_scope.
Local Open Scope run_scope.

(** ** UTF-8 *)

Definition byte_val (b : byte) : Z := Z.of_N (Byte.to_N b).

Definition between (lo hi : Z) (b : byte) : bool :=
  (lo <=? byte_val b) && (byte_val b <=? hi).

(** Whether the bytes are well-formed UTF-8 (no overlong form, no surrogate,
    nothing past U+10FFFF), which is when [bytes.decode("utf-8")] returns. *)
Fixpoint utf8_valid (l : bytes) : bool :=
  match l with
  | [] => true
  | b0 :: t =>
      if byte_val b0 <? 128 then utf8_valid t
      else if between 194 223 b0 then
        match t with
        | b1 :: t1 => between 128 191 b1 && utf8_valid t1
        | _ => false
        end
      else if between 224 239 b0 then
        match t with
        | b1 :: b2 :: t2 =>
            (if byte_val b0 =? 224 then between 160 191 b1
             else if byte_val b0 =? 237 then between 128 159 b1
             else between 128 191 b1)
            && between 128 191 b2 && utf8_valid t2
        | _ => false
        end
      else if between 240 244 b0 then
        match t with
        | b1 :: b2 :: b3 :: t3 =>
            (if byte_val b0 =? 240 then between 144 191 b1
             else if byte_val b0 =? 244 then between 128 143 b1
             else between 128 191 b1)
            && between 128 191 b2 && between 128 191 b3 && utf8_valid t3
        | _ => false
        end
      else false
  end.

(** [b.decode("utf-8")] *)
Definition decode_utf8 (b : bytes) : exn + string :=
  if utf8_valid b then inr (string_of_list_byte b) else inl UnicodeDecodeError.

(** [s.encode("utf-8")] *)
Definition encode_utf8 (s : string) : bytes := list_byte_of_string s.

(** ** [shlex] *)

Definition double_quote : string := String (ascii_of_nat 34) EmptyString.
Definition newline : string := String (ascii_of_nat 10) EmptyString.

(** The characters [shlex.quote] leaves alone: ASCII letters, digits and
    the characters of [_@%+=:,./-]. *)
Definition shlex_safe (c : ascii) : bool :=
  let n := Z.of_nat (nat_of_ascii c) in
  ((48 <=? n) && (n <=? 57)) || ((65 <=? n) && (n <=? 90))
  || ((97 <=? n) && (n <=? 122)) || Py.has_char c "_@%+=:,./-".

Fixpoint all_safe (s : string) : bool :=
  match s with
  | EmptyString => true
  | String c rest => shlex_safe c && all_safe rest
  end.

(** [shlex.quote(s)] *)
Definition shlex_quote (s : string) : string :=
  match s with
  | EmptyString => "''"
  | _ =>
      if all_safe s then s
      else "'" +:+ Py.replace_char "'"
                     ("'" +:+ double_quote +:+ "'" +:+ double_quote +:+ "'") s
           +:+ "'"
  end.

(** [shlex.join(split_command)] *)
Definition shlex_join (split_command : list string) : string :=
  Py.join " " (map shlex_quote split_command).

(** ** [schema.py]: building the configuration *)

Definition env_prefix : string := "INSPECT_EC2_SANDBOX_".

Definition required {A} (field : string) (v : option A) : exn + A :=
  match v with
  | Some a => inr a
  | None => inl (ValidationError field)
  end.

Definition and_then {A B} (r : exn + A) (k : A -> exn + B) : exn + B :=
  match r with
  | inr a => k a
  | inl e => inl e
  end.

(** The class constructor applied to a dictionary of keyword arguments:
    pydantic requires every field
    and accepts any string in a string field.  The class declares no
    validator of its own. *)
Definition Ec2SandboxEnvironmentConfig_init (params : ConfigParams)
    : exn + Ec2SandboxEnvironmentConfig :=
  and_then (required "region" (p_region params)) (fun region_ =>
  and_then (required "vpc_id" (p_vpc_id params)) (fun vpc_id_ =>
  and_then (required "security_group_id" (p_security_group_id params)) (fun sg =>
  and_then (required "subnet_id" (p_subnet_id params)) (fun subnet_id_ =>
  and_then (required "ami_id" (p_ami_id params)) (fun ami_id_ =>
  and_then (required "instance_type" (p_instance_type params)) (fun instance_type_ =>
  and_then (required "instance_profile" (p_instance_profile params)) (fun profile =>
  and_then (required "s3_bucket" (p_s3_bucket params)) (fun s3_bucket_ =>
  and_then (required "s3_key_prefix" (p_s3_key_prefix params)) (fun s3_key_prefix_ =>
  and_then (required "extra_tags" (p_extra_tags params)) (fun extra_tags_ =>
  inr {| region := region_; vpc_id := vpc_id_; security_group_id := sg;
         subnet_id := subnet_id_; ami_id := ami_id_;
         instance_type := instance_type_; instance_profile := profile;
         s3_bucket := s3_bucket_; s3_key_prefix := s3_key_prefix_;
         extra_tags := extra_tags_ |})))))))))).

(** [params.update(kwargs)] over the dictionary built from the settings. *)
Definition params_of_settings (settings : _Ec2ExistingInfraSettings)
    (tags : list (string * string)) (kwargs : ConfigOverrides) : ConfigParams :=
  {| p_region := default (st_region settings) (kw_region kwargs);
     p_vpc_id := default (st_vpc_id settings) (kw_vpc_id kwargs);
     p_security_group_id :=
       default (st_security_group_id settings) (kw_security_group_id kwargs);
     p_subnet_id := default (st_subnet_id settings) (kw_subnet_id kwargs);
     p_ami_id := default (st_ami_id settings) (kw_ami_id kwargs);
     p_instance_type := default (st_instance_type settings) (kw_instance_type kwargs);
     p_instance_profile :=
       default (st_instance_profile settings) (kw_instance_profile kwargs);
     p_s3_bucket := default (st_s3_bucket settings) (kw_s3_bucket kwargs);
     p_s3_key_prefix := default (st_s3_key_prefix settings) (kw_s3_key_prefix kwargs);
     p_extra_tags := Some (default tags (kw_extra_tags kwargs)) |}.

Definition ubuntu_ami_parameter : string :=
  "/aws/service/canonical/ubuntu/server/24.04/stable/current/amd64/hvm/ebs-gp3/ami-id".

Section Schema.
Context {W : Type} `{World W}.

Definition _find_ami_ubu24 (region_ : string) : M W string :=
  response <- call (get_parameters region_ [ubuntu_ami_parameter]) ;;
  match response with
  | [] => raise (ValueError "Could not find Ubuntu 24.04 AMI ID in SSM Parameter Store")
  | value :: _ => ret value
  end.

Definition from_settings (kwargs : ConfigOverrides) : M W Ec2SandboxEnvironmentConfig :=
  settings <- call load_settings ;;
  tags <- lift (unpack_tags (st_extra_tags_str settings)) ;;
  let params := params_of_settings settings tags kwargs in
  region_ <- match p_region params with
             | Some r => ret r
             | None =>
                 aws_region <- call (getenv "AWS_REGION") ;;
                 match aws_region with
                 | Some r => ret r
                 | None =>
                     raise (ValueError
                       ("Region must be specified either in settings,"
                        +:+ " or as an environment variable " +:+ env_prefix
                        +:+ "REGION or AWS_REGION."))
                 end
             end ;;
  ami_id_ <- match p_ami_id params with
             | Some a => ret a
             | None => _find_ami_ubu24 region_
             end ;;
  let instance_type_ := Some (default "t3a.large" (p_instance_type params)) in
  let s3_key_prefix_ := default "" (p_s3_key_prefix params) in
  if Py.startswith s3_key_prefix_ "/" then
    raise (ValueError ("S3 key prefix '" +:+ s3_key_prefix_
                       +:+ "' must not start with a '/'"))
  else
    lift (Ec2SandboxEnvironmentConfig_init
            {| p_region := Some region_;
               p_vpc_id := p_vpc_id params;
               p_security_group_id := p_security_group_id params;
               p_subnet_id := p_subnet_id params;
               p_ami_id := Some ami_id_;
               p_instance_type := instance_type_;
               p_instance_profile := p_instance_profile params;
               p_s3_bucket := p_s3_bucket params;
               p_s3_key_prefix := Some s3_key_prefix_;
               p_extra_tags := p_extra_tags params |}).

(** [Ec2SandboxEnvironment.config_deserialize] *)
Definition config_deserialize (config : ConfigParams)
    : M W Ec2SandboxEnvironmentConfig :=
  lift (Ec2SandboxEnvironmentConfig_init config).
End Schema.

(** ** [_ec2_sandbox_environment.py] *)

(** The size ceilings of [inspect_ai.util.SandboxEnvironmentLimits], which
    the environment reads and does not define. *)
Record SandboxEnvironmentLimits := {
  MAX_EXEC_OUTPUT_SIZE : Z;
  MAX_READ_FILE_SIZE : Z;
  MAX_READ_FILE_SIZE_STR : string;
}.

(** The values inspect_ai ships: 10 MiB and 100 MiB. *)
Definition inspect_ai_limits : SandboxEnvironmentLimits :=
  {| MAX_EXEC_OUTPUT_SIZE := 10 * 1024 ^ 2;
     MAX_READ_FILE_SIZE := 100 * 1024 ^ 2;
     MAX_READ_FILE_SIZE_STR := "100 MiB" |}.

Record ExecResult := {
  success : bool;
  returncode : Z;
  stdout : string;
  stderr : string;
}.

Record Ec2SandboxEnvironment := {
  config : Ec2SandboxEnvironmentConfig;
  instance_id : string;
}.

(** What [read_file] returns: text, or the raw bytes. *)
Inductive file_contents :=
| as_text (s : string)
| as_bytes (b : bytes).

Definition MARKER_TAG_KEY : string := "inspect_sandbox".

Definition EISDIR : Z := 21.

Definition ascii_letters_and_digits : string :=
  "abcdefghijklmnopqrstuvwxyzABCDEFGHIJKLMNOPQRSTUVWXYZ0123456789".

Definition is_KeyError (e : exn) : bool :=
  match e with KeyError _ => true | _ => false end.

Definition output_key (s3_key_prefix_ command_id instance_id_ stream : string) : string :=
  s3_key_prefix_ +:+ command_id +:+ "/" +:+ instance_id_
  +:+ "/awsrunShellScript/0.awsrunShellScript/" +:+ stream.

(** The first [Value] of a tag whose [Key] is [Name], or the empty string. *)
Fixpoint name_tag_of (tags : list (string * string)) : string :=
  match tags with
  | [] => ""
  | (key, value) :: rest => if String.eqb key "Name" then value else name_tag_of rest
  end.

Section Environment.
Context {W : Type} `{World W}.
Variable limits : SandboxEnvironmentLimits.

Definition log (level : log_level) (msg : string) (exc : option exn) : M W unit :=
  emit (Logged level msg exc).

Definition print (what : renderable) : M W unit := emit (Printed what).

(** tenacity: after a failed attempt, stop with [RetryError] when the
    attempts are used up, else sleep the fixed wait and call again.
    [more] is the number of attempts left after the current one. *)
Fixpoint retry_attempts {A} (more : nat) (wait_fixed : Z) (fn : M W A) : M W A :=
  try_except fn (fun e =>
    Some match more with
         | O => raise (RetryError e)
         | S more' => emit (Slept wait_fixed) ;; retry_attempts more' wait_fixed fn
         end).

(** [@retry(stop=stop_after_attempt(n), wait=wait_fixed(s))] *)
Definition retry {A} (stop_after_attempt : nat) (wait_fixed : Z) (fn : M W A) : M W A :=
  retry_attempts (Nat.pred stop_after_attempt) wait_fixed fn.

(** The decorated body of [_wait_for_ssm]. *)
Definition _wait_for_ssm_attempt (instance_id_ region_ : string) : M W bool :=
  resp <- call (describe_instance_information region_ [instance_id_]) ;;
  match resp with
  | [] => raise (Exception "Not ready")
  | first :: _ =>
      if negb (String.eqb (PingStatus first) "Online")
      then raise (Exception "Not ready")
      else ret true
  end.

Definition _wait_for_ssm (instance_id_ region_ : string) : M W bool :=
  retry 20 30 (_wait_for_ssm_attempt instance_id_ region_).

Section Methods.
Variable self : Ec2SandboxEnvironment.

Definition _s3_key_prefix (operation : string) : M W string :=
  rand <- call (random_choices ascii_letters_and_digits 8) ;;
  timestamp <- call datetime_now_isoformat ;;
  ret (s3_key_prefix (config self) +:+ operation +:+ "/"
       +:+ timestamp +:+ "-" +:+ rand +:+ "/").

Definition _delete_s3_object (key : string) : M W unit :=
  try_except
    (call (delete_object (s3_bucket (config self)) key) ;;
     log DEBUG ("Deleted S3 object: " +:+ key) None)
    (fun e =>
       Some (log WARNING ("Failed to delete S3 object " +:+ key +:+ ": ") (Some e))).

Definition _delete_s3_prefix (prefix : string) : M W unit :=
  try_except
    (response <- call (list_objects_v2 (s3_bucket (config self)) prefix) ;;
     match Contents response with
     | Some objects =>
         match objects with
         | [] => ret tt
         | _ =>
             call (delete_objects (s3_bucket (config self)) objects) ;;
             log DEBUG ("Deleted S3 objects with prefix: " +:+ prefix) None
         end
     | None => ret tt
     end)
    (fun e =>
       Some (log WARNING
               ("Failed to delete S3 objects with prefix " +:+ prefix +:+ ": ")
               (Some e))).

Definition _get_s3_file_size (key : string) : M W Z :=
  try_except
    (response <- call (head_object (s3_bucket (config self)) key) ;;
     ret (default 0 (ContentLength response)))
    (fun e =>
       match e with
       | ClientError code =>
           Some (match code with
                 | Some c => if String.eqb c "404" then raise (KeyError key)
                             else raise e
                 | None => raise e
                 end)
       | _ => None
       end).

Definition _read_s3_file_or_blank (key : string) (limit_bytes : Z) : M W string :=
  try_except
    (file_size <- _get_s3_file_size key ;;
     if limit_bytes <=? file_size then
       response_body <- call (get_object (s3_bucket (config self)) key
                                (Some (0, limit_bytes - 1))) ;;
       truncated_output_ <- lift (decode_utf8 response_body) ;;
       raise (OutputLimitExceededError "10 MiB" (Some truncated_output_))
     else
       response_body <- call (get_object (s3_bucket (config self)) key None) ;;
       lift (decode_utf8 response_body))
    (fun e =>
       if is_NoSuchKey e || is_KeyError e then
         Some (log DEBUG ("Could not retrieve " +:+ key +:+ " from S3: ") (Some e) ;;
               ret "")
       else None).

(** The [except WaiterError as we] clause of [_run_command]. *)
Definition on_waiter_error (command_id stdout_key stderr_key : string)
    (we : exn) (last_response_ : LastResponse) : M W (Z * string * string) :=
  log DEBUG "Command execution failed: " (Some we) ;;
  match lr_Status last_response_ with
  | Some status =>
      log DEBUG ("Command status: " +:+ status) None ;;
      if String.eqb status "InProgress" then
        log WARNING "Command is still running, killing it." None ;;
        call (cancel_command command_id [instance_id self]) ;;
        raise (TimeoutError "Command execution timed out.")
      else ret tt
  | None => ret tt
  end ;;
  stdout_ <- _read_s3_file_or_blank stdout_key (MAX_EXEC_OUTPUT_SIZE limits) ;;
  stderr_ <- _read_s3_file_or_blank stderr_key (MAX_EXEC_OUTPUT_SIZE limits) ;;
  let return_code := default 1 (lr_ResponseCode last_response_) in
  if Py.contains stderr_ "failed to run commands: exit status 126" then
    raise (PermissionError ("Permission denied executing command: " +:+ stderr_))
  else ret (return_code, stdout_, stderr_).

(** The [try] block of [_run_command]: wait for the command, fetch its
    output, ask for its return code. *)
Definition wait_and_collect (command_id stdout_key stderr_key : string)
    (timeout : option Z) : M W (Z * string * string) :=
  call (wait_command_executed command_id (instance_id self)
          1 (Py.int_or timeout 3600)) ;;
  stdout_ <- _read_s3_file_or_blank stdout_key (MAX_EXEC_OUTPUT_SIZE limits) ;;
  stderr_ <- _read_s3_file_or_blank stderr_key (MAX_EXEC_OUTPUT_SIZE limits) ;;
  output_response <- call (get_command_invocation command_id (instance_id self)) ;;
  ret (default 0 (ResponseCode output_response), stdout_, stderr_).

Definition _run_command (s3_key_prefix_ : string) (params : Parameters)
    (timeout : option Z) : M W ExecResult :=
  command_id <- call (send_command [instance_id self] "AWS-RunShellScript" params
                        (s3_bucket (config self)) s3_key_prefix_) ;;
  let stdout_key := output_key s3_key_prefix_ command_id (instance_id self) "stdout" in
  let stderr_key := output_key s3_key_prefix_ command_id (instance_id self) "stderr" in
  '(return_code, stdout_, stderr_) <-
    try_except
      (wait_and_collect command_id stdout_key stderr_key timeout)
      (fun e =>
         match e with
         | WaiterError last_response_ =>
             Some (on_waiter_error command_id stdout_key stderr_key e last_response_)
         | _ => None
         end) ;;
  _delete_s3_object stdout_key ;;
  _delete_s3_object stderr_key ;;
  _delete_s3_prefix (s3_key_prefix_ +:+ command_id +:+ "/") ;;
  ret {| success := (return_code =? 0);
         returncode := return_code;
         stdout := stdout_;
         stderr := stderr_ |}.

(** The command batch [exec] assembles. *)
Definition exec_commands (cmd : list string) (cwd : option string)
    (env : list (string * string)) : list string :=
  map (fun kv => "export " +:+ shlex_quote (fst kv) +:+ "=" +:+ shlex_quote (snd kv)) env
  ++ match cwd with
     | Some dir => ["cd " +:+ shlex_quote dir]
     | None => []
     end
  ++ [shlex_join cmd].

Definition exec (cmd : list string) (input : option bytes) (cwd : option string)
    (env : list (string * string)) (user : option string) (timeout : option Z)
    (timeout_retry : bool) : M W ExecResult :=
  match input with
  | Some _ => log WARNING "Input parameter not supported by EC2 sandbox" None
  | None => ret tt
  end ;;
  match user with
  | Some _ => log WARNING "User parameter not supported by EC2 sandbox" None
  | None => ret tt
  end ;;
  let params := {| commands := exec_commands cmd cwd env;
                   executionTimeout := [Py.str_of_int (Py.int_or timeout 3600)] |} in
  s3_key_prefix_ <- _s3_key_prefix "exec" ;;
  _run_command s3_key_prefix_ params timeout.

(** [read_file], up to the check of the remote upload: the key the file
    was uploaded under. *)
Definition read_file_upload (file : string) : M W string :=
  prefix <- _s3_key_prefix "read_file" ;;
  let file_key := prefix +:+ file in
  url <- call (generate_presigned_url "put_object" (s3_bucket (config self))
                 file_key 60) ;;
  let commands_ :=
    [ "#!/bin/sh"; "set -e";
      shlex_join ["test"; "-d"; file] +:+ "&& echo 'Is a directory' 1>&2 && exit 1";
      shlex_join ["curl"; "--fail-with-body"; "--verbose"; "--upload-file"; file; url] ] in
  let params := {| commands := commands_; executionTimeout := ["3600"] |} in
  s3_key_prefix_ <- _s3_key_prefix "exec" ;;
  result <- _run_command s3_key_prefix_ params (Some 3600) ;;
  if negb (success result) then
    if Py.contains (stderr result) "Is a directory" then
      raise (IsADirectoryError EISDIR "Is a directory" file)
    else
      raise (FileNotFoundError
               ("Failed to read file " +:+ file +:+ ": " +:+ stderr result))
  else ret file_key.

(** [read_file], from the download of the uploaded object on. *)
Definition read_file_download (file file_key : string) (text : bool)
    : M W file_contents :=
  response_body <-
    try_except
      (file_size <- _get_s3_file_size file_key ;;
       if MAX_READ_FILE_SIZE limits <=? file_size then
         call (get_object (s3_bucket (config self)) file_key
                 (Some (0, MAX_READ_FILE_SIZE limits - 1))) ;;
         raise (OutputLimitExceededError (MAX_READ_FILE_SIZE_STR limits) None)
       else
         call (get_object (s3_bucket (config self)) file_key None))
      (fun e =>
         if is_NoSuchKey e || is_KeyError e then
           Some (raise (FileNotFoundError
                          ("File " +:+ file +:+ " does not exist in S3 bucket.")))
         else None) ;;
  _delete_s3_object file_key ;;
  if text then
    s <- lift (decode_utf8 response_body) ;; ret (as_text s)
  else ret (as_bytes response_body).

Definition read_file (file : string) (text : bool) : M W file_contents :=
  file_key <- read_file_upload file ;;
  read_file_download file file_key text.
End Methods.

Definition cleanup_filters : list (string * list string) :=
  [ ("tag:" +:+ MARKER_TAG_KEY, ["true"]);
    ("instance-state-name", ["pending"; "running"; "stopping"; "stopped"]) ].

Definition cli_cleanup (id : option string) : M W unit :=
  match id with
  | None =>
      response <- call (describe_instances cleanup_filters) ;;
      let instances := concat (map Instances response) in
      match instances with
      | _ :: _ =>
          print (Table ["Instance ID"; "Instance Name"]
                   (map (fun i => (InstanceId i, name_tag_of (default [] (inst_Tags i))))
                      instances)) ;;
          is_interactive_shell <- call stdin_isatty ;;
          is_ci <- call (environ_contains "CI") ;;
          is_pytest <- call (environ_contains "PYTEST_CURRENT_TEST") ;;
          go_ahead <-
            (if is_interactive_shell && negb is_ci && negb is_pytest then
               confirmed <- call (confirm_ask
                 "Are you sure you want to delete ALL the above resources?") ;;
               if negb confirmed then print (Text "Cancelled.") ;; ret false
               else ret true
             else ret true) ;;
          if go_ahead : bool then
            call (terminate_instances (map InstanceId instances))
          else ret tt
      | [] =>
          print (Text (newline +:+ "No EC2 sandbox instances found to clean up."
                       +:+ newline))
      end
  | Some _ =>
      print (Text (newline +:+ "[red]Cleanup by ID not implemented[/red]" +:+ newline))
  end.
End Environment.

(** ** The object-store contract, on any world

    What the code relies on from the bucket: a stored object answers the size
    probe with its length and the content fetch with its bytes, a byte range
    [0-last] with its first [last + 1] bytes, and reading changes nothing; a
    missing key answers the size probe with the error code 404. *)

Section Contract.
Context {W : Type} `{World W}.

Definition holds_object (w : W) (bucket key : string) (content : bytes) : Prop :=
  respond (head_object bucket key) w
    = (inr {| ContentLength := Some (Z.of_nat (length content)) |}, w)
  /\ respond (get_object bucket key None) w = (inr content, w)
  /\ forall last : Z, 0 <= last -> (0 < length content)%nat ->
       respond (get_object bucket key (Some (0, last))) w
         = (inr (take (Z.to_nat (last + 1)) content), w).

(** The store reports the key missing: at the size probe (the error code
    404 of a HEAD request, or [NoSuchKey]), or (the object gone in between)
    at the content fetch that follows it. *)
Definition reports_missing (w : W) (bucket key : string) (limit_bytes : Z) : Prop :=
  match respond (head_object bucket key) w with
  | (inl e, _) => e = ClientError (Some "404") \/ e = NoSuchKey
  | (inr probe, w1) =>
      let range := if limit_bytes <=? default 0 (ContentLength probe)
                   then Some (0, limit_bytes - 1) else None in
      fst (respond (get_object bucket key range) w1) = inl NoSuchKey
  end.

Definition outcome_of {A} (run : outcome A * W * list event) : outcome A := fst (fst run).
Definition world_of {A} (run : outcome A * W * list event) : W := snd (fst run).
Definition trace_of {A} (run : outcome A * W * list event) : list event := snd run.
End Contract.

(** ** A scripted world: an in-memory bucket and a relay that plays a script *)

Record Scripted := {
  objects : gmap string bytes;            (* the bucket: key to content *)
  relay_command_id : string;              (* the id the relay assigns *)
  relay_wait : exn + unit;                (* how the completion wait ends *)
  relay_invocation : exn + CommandInvocation;
  relay_cancel : exn + unit;
  inventory : list (exn + list InstanceInformation);  (* successive inventory answers *)
  running : list Reservation;             (* what the control plane lists *)
  interactive : bool;                     (* stdin is a terminal *)
  confirms : bool;                        (* the answer typed at the prompt *)
  environ : list (string * string);
  settings : exn + _Ec2ExistingInfraSettings;
  ami_parameters : list string;
  random_suffix : string;
  clock : string;
}.

Definition set_objects (w : Scripted) (o : gmap string bytes) : Scripted :=
  {| objects := o; relay_command_id := relay_command_id w; relay_wait := relay_wait w;
     relay_invocation := relay_invocation w; relay_cancel := relay_cancel w;
     inventory := inventory w; running := running w; interactive := interactive w;
     confirms := confirms w; environ := environ w; settings := settings w;
     ami_parameters := ami_parameters w; random_suffix := random_suffix w;
     clock := clock w |}.

Definition set_inventory (w : Scripted) (i : list (exn + list InstanceInformation))
    : Scripted :=
  {| objects := objects w; relay_command_id := relay_command_id w;
     relay_wait := relay_wait w; relay_invocation := relay_invocation w;
     relay_cancel := relay_cancel w; inventory := i; running := running w;
     interactive := interactive w; confirms := confirms w; environ := environ w;
     settings := settings w; ami_parameters := ami_parameters w;
     random_suffix := random_suffix w; clock := clock w |}.

(** A relay whose script is replaced. *)
Definition set_relay (w : Scripted) (wait : exn + unit)
    (invocation : exn + CommandInvocation) (cancel : exn + unit) : Scripted :=
  {| objects := objects w; relay_command_id := relay_command_id w;
     relay_wait := wait; relay_invocation := invocation; relay_cancel := cancel;
     inventory := inventory w; running := running w; interactive := interactive w;
     confirms := confirms w; environ := environ w; settings := settings w;
     ami_parameters := ami_parameters w; random_suffix := random_suffix w;
     clock := clock w |}.

(** A byte range of a stored object: the bytes [first..last], an
    [InvalidRange] error when [first] is past the end, and the whole object
    when the range is malformed (the header is then ignored). *)
Definition ranged (content : bytes) (range : option (Z * Z)) : exn + bytes :=
  match range with
  | None => inr content
  | Some (first, last) =>
      if (0 <=? first) && (first <=? last) then
        if first <? Z.of_nat (length content) then
          inr (take (Z.to_nat (last - first + 1)) (drop (Z.to_nat first) content))
        else inl (ClientError (Some "InvalidRange"))
      else inr content
  end.

Fixpoint lookup_env (name : string) (env : list (string * string)) : option string :=
  match env with
  | [] => None
  | (k, v) :: rest => if String.eqb k name then Some v else lookup_env name rest
  end.

Definition keys_under (prefix : string) (o : gmap string bytes) : list string :=
  filter (fun k => String.prefix prefix k = true) (map fst (map_to_list o)).

Definition scripted_respond (T : Type) (r : request T) (w : Scripted)
    : (exn + T) * Scripted :=
  match r in request T return (exn + T) * Scripted with
  | send_command _ _ _ _ _ => (inr (relay_command_id w), w)
  | wait_command_executed _ _ _ _ => (relay_wait w, w)
  | get_command_invocation _ _ => (relay_invocation w, w)
  | cancel_command _ _ => (relay_cancel w, w)
  | describe_instance_information _ ids =>
      match inventory w with
      | [] => (inr [], w)
      | answer :: later =>
          (match answer with
           | inr records =>
               inr (filter (fun i => ii_InstanceId i ∈ ids) records)
           | inl e => inl e
           end, set_inventory w later)
      end
  | get_parameters _ _ => (inr (ami_parameters w), w)
  | head_object _ key =>
      match objects w !! key with
      | Some content =>
          (inr {| ContentLength := Some (Z.of_nat (length content)) |}, w)
      | None => (inl (ClientError (Some "404")), w)
      end
  | get_object _ key range =>
      match objects w !! key with
      | Some content => (ranged content range, w)
      | None => (inl NoSuchKey, w)
      end
  | delete_object _ key => (inr tt, set_objects w (delete key (objects w)))
  | list_objects_v2 _ prefix =>
      match keys_under prefix (objects w) with
      | [] => (inr {| Contents := None |}, w)
      | keys => (inr {| Contents := Some (take 1000 keys) |}, w)
      end
  | delete_objects _ keys =>
      (inr tt, set_objects w (foldr delete (objects w) keys))
  | generate_presigned_url method bucket key _ =>
      (inr ("https://" +:+ bucket +:+ ".s3.amazonaws.com/" +:+ key +:+ "?" +:+ method), w)
  | describe_instances _ => (inr (running w), w)
  | terminate_instances _ => (inr tt, w)
  | random_choices _ _ => (inr (random_suffix w), w)
  | datetime_now_isoformat => (inr (clock w), w)
  | stdin_isatty => (inr (interactive w), w)
  | environ_contains name => (inr (bool_decide (is_Some (lookup_env name (environ w)))), w)
  | getenv name => (inr (lookup_env name (environ w)), w)
  | confirm_ask _ => (inr (confirms w), w)
  | load_settings => (settings w, w)
  end.

#[export] Instance scripted_world : World Scripted := scripted_respond.

Definition no_settings : _Ec2ExistingInfraSettings :=
  {| st_region := None; st_vpc_id := None; st_security_group_id := None;
     st_subnet_id := None; st_ami_id := None; st_instance_type := None;
     st_instance_profile := None; st_s3_bucket := None; st_s3_key_prefix := None;
     st_extra_tags_str := None |}.

(** A quiet world: an empty bucket, a relay whose commands succeed with
    code 0, an agent that never registers, nothing running. *)
Definition quiet : Scripted :=
  {| objects := ∅;
     relay_command_id := "cmd-1";
     relay_wait := inr tt;
     relay_invocation := inr {| ResponseCode := Some 0 |};
     relay_cancel := inr tt;
     inventory := [];
     running := [];
     interactive := false;
     confirms := false;
     environ := [];
     settings := inr no_settings;
     ami_parameters := ["ami-0f00"];
     random_suffix := "Ab3dEf9h";
     clock := "2025-01-01T00:00:00";
  |}.

Definition test_config : Ec2SandboxEnvironmentConfig :=
  {| region := "eu-west-2"; vpc_id := "vpc-123"; security_group_id := "sg-456";
     subnet_id := "subnet-654321"; ami_id := "ami-789"; instance_type := "t3a.large";
     instance_profile := "profile"; s3_bucket := "fake-bucket"; s3_key_prefix := "";
     extra_tags := [] |}.

Definition test_env : Ec2SandboxEnvironment :=
  {| config := test_config; instance_id := "i-0abc" |}.

(** Small ceilings, to run the size checks on short contents. *)
Definition small_limits : SandboxEnvironmentLimits :=
  {| MAX_EXEC_OUTPUT_SIZE := 4; MAX_READ_FILE_SIZE := 4;
     MAX_READ_FILE_SIZE_STR := "4 B" |}.

Definition bytes_of (s : string) : bytes := list_byte_of_string s.

(** ** Reading traces *)

Definition is_log (ev : event) : bool :=
  match ev with Logged _ _ _ => true | _ => false end.

(** The trace without its log records: what the run asked of the outside
    world, printed and slept. *)
Definition requests (tr : list event) : list event :=
  List.filter (fun ev => negb (is_log ev)) tr.

(** The replies of the completion wait, in order. *)
Definition waits (tr : list event) : list (exn + unit) :=
  omap (fun ev =>
          match ev with
          | Call r reply =>
              match r in request T return (exn + T) -> option (exn + unit) with
              | wait_command_executed _ _ _ _ => Some
              | _ => fun _ => None
              end reply
          | _ => None
          end) tr.

(** The replies of [get_command_invocation], in order. *)
Definition invocations (tr : list event) : list (exn + CommandInvocation) :=
  omap (fun ev =>
          match ev with
          | Call r reply =>
              match r in request T return (exn + T) -> option (exn + CommandInvocation) with
              | get_command_invocation _ _ => Some
              | _ => fun _ => None
              end reply
          | _ => None
          end) tr.

(** A log record or a call to the object store. *)
Definition is_storage (ev : event) : bool :=
  match ev with
  | Call r _ =>
      match r with
      | head_object _ _ | get_object _ _ _ | delete_object _ _
      | list_objects_v2 _ _ | delete_objects _ _ => true
      | _ => false
      end
  | Logged _ _ _ => true
  | _ => false
  end.


(** The trace of a polling loop: one poll per answer, a sleep between two
    polls. *)
Fixpoint polls {T} (poll : request T) (pause : Z) (answers : list (exn + T)) : list event :=
  match answers with
  | [] => []
  | [a] => [Call poll a]
  | a :: later => Call poll a :: Slept pause :: polls poll pause later
  end.

(** A log record, a size probe or a content fetch. *)
Definition is_fetch (ev : event) : bool :=
  match ev with
  | Call r _ =>
      match r with
      | head_object _ _ | get_object _ _ _ => true
      | _ => false
      end
  | Logged _ _ _ => true
  | _ => false
  end.

(** A call that removes objects, or lists them to remove them. *)
Definition is_deletion (ev : event) : bool :=
  match ev with
  | Call r _ =>
      match r with
      | delete_object _ _ | list_objects_v2 _ _ | delete_objects _ _ => true
      | _ => false
      end
  | _ => false
  end.

Definition not_deletion (ev : event) : bool := negb (is_deletion ev).

(** A computation all of whose events, from any world, are [allowed]. *)
Definition only {W A} (allowed : event -> bool) (m : M W A) : Prop :=
  forall w, forallb allowed (snd (m w)) = true.

(** Anything but a reply to the completion wait or to
    [get_command_invocation]. *)
Definition not_relay_reply (ev : event) : bool :=
  match ev with
  | Call r _ =>
      match r with
      | wait_command_executed _ _ _ _ | get_command_invocation _ _ => false
      | _ => true
      end
  | _ => true
  end.

(** The warnings [exec] logs for the arguments it does not support. *)
Definition warnings_of (input : option bytes) (user : option string) : list event :=
  match input with
  | Some _ => [Logged WARNING "Input parameter not supported by EC2 sandbox" None]
  | None => []
  end
  ++ match user with
     | Some _ => [Logged WARNING "User parameter not supported by EC2 sandbox" None]
     | None => []
     end.


(** ** Sample inputs *)

(** A dictionary for the constructor whose key prefix starts with [/]. *)
Definition slash_params : ConfigParams :=
  {| p_region := Some "eu-west-2"; p_vpc_id := Some "vpc-123";
     p_security_group_id := Some "sg-456"; p_subnet_id := Some "subnet-654321";
     p_ami_id := Some "ami-789"; p_instance_type := Some "t3a.large";
     p_instance_profile := Some "profile"; p_s3_bucket := Some "fake-bucket";
     p_s3_key_prefix := Some "/sandbox/"; p_extra_tags := Some [] |}.

(** Settings like those of the schema test, with a key prefix and tags. *)
Definition full_settings : _Ec2ExistingInfraSettings :=
  {| st_region := Some "eu-west-2"; st_vpc_id := Some "vpc-123";
     st_security_group_id := Some "sg-456"; st_subnet_id := Some "subnet-654321";
     st_ami_id := Some "ami-789"; st_instance_type := None;
     st_instance_profile := Some "profile"; st_s3_bucket := Some "fake-bucket";
     st_s3_key_prefix := Some "runs/"; st_extra_tags_str := Some "team=eval;owner=me" |}.

Definition no_overrides : ConfigOverrides :=
  {| kw_region := None; kw_vpc_id := None; kw_security_group_id := None;
     kw_subnet_id := None; kw_ami_id := None; kw_instance_type := None;
     kw_instance_profile := None; kw_s3_bucket := None; kw_s3_key_prefix := None;
     kw_extra_tags := None |}.

(** The keyword argument [s3_key_prefix] set to a prefix with a leading [/]. *)
Definition slash_override : ConfigOverrides :=
  {| kw_region := None; kw_vpc_id := None; kw_security_group_id := None;
     kw_subnet_id := None; kw_ami_id := None; kw_instance_type := None;
     kw_instance_profile := None; kw_s3_bucket := None;
     kw_s3_key_prefix := Some (Some "/runs/"); kw_extra_tags := None |}.

(** What [from_settings] builds from [full_settings]. *)
Definition configured_config : Ec2SandboxEnvironmentConfig :=
  {| region := "eu-west-2"; vpc_id := "vpc-123"; security_group_id := "sg-456";
     subnet_id := "subnet-654321"; ami_id := "ami-789"; instance_type := "t3a.large";
     instance_profile := "profile"; s3_bucket := "fake-bucket"; s3_key_prefix := "runs/";
     extra_tags := [("team", "eval"); ("owner", "me")] |}.

(** The quiet world with [full_settings] in its environment. *)
Definition configured : Scripted :=
  {| objects := ∅; relay_command_id := "cmd-1"; relay_wait := inr tt;
     relay_invocation := inr {| ResponseCode := Some 0 |}; relay_cancel := inr tt;
     inventory := []; running := []; interactive := false; confirms := false;
     environ := []; settings := inr full_settings; ami_parameters := ["ami-0f00"];
     random_suffix := "Ab3dEf9h"; clock := "2025-01-01T00:00:00" |}.

(** Two inventory records for one instance id, the first of them Online. *)
Definition online_twice : list InstanceInformation :=
  [ {| ii_InstanceId := "i-0abc"; PingStatus := "Online" |};
    {| ii_InstanceId := "i-0abc"; PingStatus := "ConnectionLost" |} ].

(** The key [read_file] uploads [notes.txt] under in the scripted world. *)
Definition notes_key : string := "read_file/2025-01-01T00:00:00-Ab3dEf9h/notes.txt".

(** A bucket holding six bytes of text under [notes_key], the two bytes of
    one accented letter under [accent], and one byte that is no UTF-8 under
    [binary]. *)
Definition stocked : Scripted :=
  set_objects quiet
    (<[ notes_key := bytes_of "abcdef" ]>
       (<[ "accent" := [xc3; xa9] ]> (<[ "binary" := [xff] ]> ∅))).

Definition echo_params : Parameters :=
  {| commands := ["echo hello"]; executionTimeout := ["5"] |}.

Definition still_running : LastResponse :=
  {| lr_Status := Some "InProgress"; lr_ResponseCode := None |}.

Definition failed_without_code : LastResponse :=
  {| lr_Status := Some "Failed"; lr_ResponseCode := None |}.

Definition failed_with_126 : LastResponse :=
  {| lr_Status := Some "Failed"; lr_ResponseCode := Some 126 |}.


(** The command completes and the relay reports no response code. *)
Definition unreported : Scripted :=
  set_relay quiet (inr tt) (inr {| ResponseCode := None |}) (inr tt).

(** The command fails and the error reports no response code. *)
Definition failing : Scripted :=
  set_relay quiet (inl (WaiterError failed_without_code)) (relay_invocation quiet) (inr tt).

(** Where the relay stores the error stream of command [cmd-1] dispatched
    under the prefix [exec/t/]. *)
Definition stderr_of_cmd_1 : string :=
  "exec/t/cmd-1/i-0abc/awsrunShellScript/0.awsrunShellScript/stderr".

(** The command could not be executed: exit status 126 on the error stream. *)
Definition denied : Scripted :=
  set_objects
    (set_relay quiet (inl (WaiterError failed_with_126)) (relay_invocation quiet) (inr tt))
    (<[ stderr_of_cmd_1 := bytes_of "failed to run commands: exit status 126" ]> ∅).

(** The command failed for another reason, with exit code 1. *)
Definition crashed : Scripted :=
  set_objects
    (set_relay quiet
       (inl (WaiterError {| lr_Status := Some "Failed"; lr_ResponseCode := Some 1 |}))
       (relay_invocation quiet) (inr tt))
    (<[ stderr_of_cmd_1 := bytes_of "boom" ]> ∅).

(** Where the relay stores the output stream of the command [exec]
    dispatches in the scripted world. *)
Definition stdout_of_exec : string :=
  "exec/2025-01-01T00:00:00-Ab3dEf9h/cmd-1/i-0abc/awsrunShellScript/0.awsrunShellScript/stdout".

(** The command printed [hello] and a line feed. *)
Definition greeted : Scripted :=
  set_objects quiet (<[ stdout_of_exec := bytes_of ("hello" +:+ newline) ]> ∅).

(** ** More sample inputs *)

(** The dictionary that holds every field of a configuration. *)
Definition params_of_config (cfg : Ec2SandboxEnvironmentConfig) : ConfigParams :=
  {| p_region := Some (region cfg); p_vpc_id := Some (vpc_id cfg);
     p_security_group_id := Some (security_group_id cfg);
     p_subnet_id := Some (subnet_id cfg); p_ami_id := Some (ami_id cfg);
     p_instance_type := Some (instance_type cfg);
     p_instance_profile := Some (instance_profile cfg);
     p_s3_bucket := Some (s3_bucket cfg);
     p_s3_key_prefix := Some (s3_key_prefix cfg);
     p_extra_tags := Some (extra_tags cfg) |}.

(** Settings whose tag text is malformed, and are otherwise complete. *)
Definition bad_tag_settings : _Ec2ExistingInfraSettings :=
  {| st_region := Some "eu-west-2"; st_vpc_id := Some "vpc-123";
     st_security_group_id := Some "sg-456"; st_subnet_id := Some "subnet-654321";
     st_ami_id := Some "ami-789"; st_instance_type := None;
     st_instance_profile := Some "profile"; st_s3_bucket := Some "fake-bucket";
     st_s3_key_prefix := None; st_extra_tags_str := Some "oops" |}.

(** Keyword arguments that supply the tags themselves. *)
Definition tags_override : ConfigOverrides :=
  {| kw_region := None; kw_vpc_id := None; kw_security_group_id := None;
     kw_subnet_id := None; kw_ami_id := None; kw_instance_type := None;
     kw_instance_profile := None; kw_s3_bucket := None; kw_s3_key_prefix := None;
     kw_extra_tags := Some [("team", "eval")] |}.

(** The quiet world with given settings and process environment. *)
Definition with_settings (st : _Ec2ExistingInfraSettings) (env : list (string * string))
    : Scripted :=
  {| objects := ∅; relay_command_id := "cmd-1"; relay_wait := inr tt;
     relay_invocation := inr {| ResponseCode := Some 0 |}; relay_cancel := inr tt;
     inventory := []; running := []; interactive := false; confirms := false;
     environ := env; settings := inr st; ami_parameters := ["ami-0f00"];
     random_suffix := "Ab3dEf9h"; clock := "2025-01-01T00:00:00" |}.

(** Settings that name neither a region nor an image. *)
Definition bare_settings : _Ec2ExistingInfraSettings :=
  {| st_region := None; st_vpc_id := Some "vpc-123";
     st_security_group_id := Some "sg-456"; st_subnet_id := Some "subnet-654321";
     st_ami_id := None; st_instance_type := None;
     st_instance_profile := Some "profile"; st_s3_bucket := Some "fake-bucket";
     st_s3_key_prefix := None; st_extra_tags_str := None |}.

(** What [from_settings] builds from [bare_settings] with [AWS_REGION] set
    to [eu-central-1]. *)
Definition configured_with_defaults : Ec2SandboxEnvironmentConfig :=
  {| region := "eu-central-1"; vpc_id := "vpc-123"; security_group_id := "sg-456";
     subnet_id := "subnet-654321"; ami_id := "ami-0f00"; instance_type := "t3a.large";
     instance_profile := "profile"; s3_bucket := "fake-bucket"; s3_key_prefix := "";
     extra_tags := [] |}.

(** The quiet world in the same second, its generator giving another suffix. *)
Definition reseeded : Scripted :=
  {| objects := ∅; relay_command_id := "cmd-1"; relay_wait := inr tt;
     relay_invocation := inr {| ResponseCode := Some 0 |}; relay_cancel := inr tt;
     inventory := []; running := []; interactive := false; confirms := false;
     environ := []; settings := inr no_settings; ami_parameters := ["ami-0f00"];
     random_suffix := "Zz9yXx8w"; clock := "2025-01-01T00:00:00" |}.

(** A world that refuses every request with an access error. *)
Definition refusing_respond (T : Type) (r : request T) (w : unit) : (exn + T) * unit :=
  (inl (ClientError (Some "AccessDenied")), w).

#[export] Instance refusing_world : World unit := refusing_respond.

(** Anything but a call to [cancel_command]. *)
Definition not_cancel (ev : event) : bool :=
  match ev with
  | Call r _ =>
      match r with
      | cancel_command _ _ => false
      | _ => true
      end
  | _ => true
  end.

Definition exit_126_marker : string := "failed to run commands: exit status 126".

(** The wait gives up on a command still in progress, and the relay refuses
    the cancellation. *)
Definition cancel_refused : Scripted :=
  set_relay quiet (inl (WaiterError still_running)) (relay_invocation quiet)
    (inl (ClientError (Some "InvalidCommandId"))).

(** The instance ids of the [terminate_instances] calls, in order. *)
Definition terminations (tr : list event) : list (list string) :=
  omap (fun ev =>
          match ev with
          | Call r _ =>
              match r with
              | terminate_instances ids => Some ids
              | _ => None
              end
          | _ => None
          end) tr.

(** The answers given at the confirmation prompt, in order. *)
Definition prompts (tr : list event) : list (exn + bool) :=
  omap (fun ev =>
          match ev with
          | Call r reply =>
              match r in request T return (exn + T) -> option (exn + bool) with
              | confirm_ask _ => Some
              | _ => fun _ => None
              end reply
          | _ => None
          end) tr.

(** Two sandbox instances left running, one of them named. *)
Definition leftovers : list Reservation :=
  [ {| Instances := [ {| InstanceId := "i-0abc";
                         inst_Tags := Some [("inspect_sandbox", "true");
                                            ("Name", "inspect_ec2_sandbox_demo")] |} ] |};
    {| Instances := [ {| InstanceId := "i-0def"; inst_Tags := None |} ] |} ].

(** A world with [leftovers] running, seen from a terminal or not, in an
    environment, and an answer ready for the prompt. *)
Definition at_console (tty answer : bool) (env : list (string * string)) : Scripted :=
  {| objects := ∅; relay_command_id := "cmd-1"; relay_wait := inr tt;
     relay_invocation := inr {| ResponseCode := Some 0 |}; relay_cancel := inr tt;
     inventory := []; running := leftovers; interactive := tty; confirms := answer;
     environ := env; settings := inr no_settings; ami_parameters := ["ami-0f00"];
     random_suffix := "Ab3dEf9h"; clock := "2025-01-01T00:00:00" |}.

(** Case analysis on the reply to every request in the goal. *)
Ltac answer_requests :=
  repeat match goal with
         | |- context [respond ?r ?w] =>
             let e := fresh "e" in
             let v := fresh "v" in
             let w' := fresh "w" in
             destruct (respond r w) as [[e|v] w'];
             try match type of v with
                 | bool => destruct v
                 | unit => destruct v
                 end; simpl
         end.

(** ** [sample_cleanup] *)

(** A value of the [environments] dictionary: an environment of this
    provider, whose EC2 client the call goes through, or one of another
    class. *)
Inductive SandboxEnvironment :=
| Ec2 (env : Ec2SandboxEnvironment)
| Foreign.

Section SampleCleanup.
Context {W : Type} `{World W}.

(** The loop over [environments.values()]. *)
Fixpoint terminate_each (environments : list SandboxEnvironment) : M W unit :=
  match environments with
  | [] => ret tt
  | Ec2 env :: rest =>
      call (terminate_instances [instance_id env]) ;;
      terminate_each rest
  | Foreign :: rest => terminate_each rest
  end.

(** [Ec2SandboxEnvironment.sample_cleanup]; the dictionary is the list of
    its items in insertion order. *)
Definition sample_cleanup (task_name : string)
    (config : option Ec2SandboxEnvironmentConfig)
    (environments : list (string * SandboxEnvironment)) (interrupted : bool)
    : M W unit :=
  if negb interrupted then terminate_each (map snd environments)
  else ret tt.
End SampleCleanup.

(** The instance of each environment of this provider, one list per
    environment, in the order of the dictionary. *)
Definition own_instances (environments : list (string * SandboxEnvironment))
    : list (list string) :=
  omap (fun item =>
          match snd item with
          | Ec2 env => Some [instance_id env]
          | Foreign => None
          end) environments.

(** ** The inventory, as the relay answers a filtered query *)






(** * Properties *)

(** ** The tag codec *)

Lemma split_plain (sep : ascii) (s : string) :
  Py.has_char sep s = false -> Py.split sep s = [s].
Proof.
  induction s as [|c s IH]; simpl; [reflexivity|].
  intros Hs. apply orb_false_iff in Hs as [Hc Hs].
  rewrite Hc, (IH Hs). reflexivity.
Qed.

Lemma split_app (sep : ascii) (s t : string) :
  Py.has_char sep s = false ->
  Py.split sep (s +:+ String sep t) = s :: Py.split sep t.
Proof.
  induction s as [|c s IH]; simpl.
  - intros _. rewrite Ascii.eqb_refl. reflexivity.
  - intros Hs. apply orb_false_iff in Hs as [Hc Hs].
    rewrite Hc, (IH Hs). reflexivity.
Qed.

Lemma has_char_app (c : ascii) (s t : string) :
  Py.has_char c (s +:+ t) = Py.has_char c s || Py.has_char c t.
Proof.
  induction s as [|d s IH]; simpl; [reflexivity|].
  rewrite IH. apply orb_assoc.
Qed.

Lemma split_format_tag (kv : string * string) :
  plain_pair kv -> Py.split "=" (format_tag kv) = [fst kv; snd kv].
Proof.
  intros [[_ Hk] [_ Hv]]. unfold format_tag.
  change ("=" +:+ snd kv) with (String "=" (snd kv)).
  rewrite (split_app _ _ _ Hk), (split_plain _ _ Hv). reflexivity.
Qed.

Lemma format_tag_one_piece (kv : string * string) :
  plain_pair kv -> Py.has_char ";" (format_tag kv) = false.
Proof.
  intros [[Hk _] [Hv _]]. unfold format_tag.
  rewrite !has_char_app, Hk, Hv. reflexivity.
Qed.

Lemma split_format_tags (tags : list (string * string)) :
  Forall plain_pair tags -> tags <> [] ->
  Py.split ";" (format_tags tags) = map format_tag tags.
Proof.
  unfold format_tags, Py.join.
  induction 1 as [|kv tags Hkv Htags IH]; [congruence|]. intros _.
  destruct tags as [|kv' tags].
  - simpl. apply split_plain, format_tag_one_piece, Hkv.
  - change (String.concat ";" (map format_tag (kv :: kv' :: tags)))
      with (format_tag kv
            +:+ String ";" (String.concat ";" (map format_tag (kv' :: tags)))).
    rewrite split_app by apply format_tag_one_piece, Hkv.
    rewrite IH by congruence. reflexivity.
Qed.

Lemma unpack_loop_format (tags acc : list (string * string)) :
  Forall plain_pair tags ->
  unpack_loop (map format_tag tags) acc = inr (acc ++ tags).
Proof.
  intros Htags. revert acc.
  induction Htags as [|[k v] tags Hkv Htags IH]; intros acc; simpl.
  - rewrite app_nil_r. reflexivity.
  - rewrite (split_format_tag _ Hkv). simpl.
    rewrite IH, <- app_assoc. reflexivity.
Qed.

(** X1: the codec reads back what the text form encodes, in order. *)
Lemma unpack_tags_format_tags (tags : list (string * string)) :
  Forall plain_pair tags -> unpack_tags (Some (format_tags tags)) = inr tags.
Proof.
  intros Htags. destruct tags as [|kv tags]; [reflexivity|].
  assert (Hloop : unpack_loop (Py.split ";" (format_tags (kv :: tags))) [] = inr (kv :: tags)).
  { rewrite split_format_tags by (auto; congruence).
    apply (unpack_loop_format _ [] Htags). }
  unfold unpack_tags. destruct (format_tags (kv :: tags)) eqn:E.
  - simpl in Hloop. discriminate.
  - rewrite Hloop. reflexivity.
Qed.

Lemma unpack_loop_error (tags_list : list string) (acc : list (string * string)) (e : exn) :
  unpack_loop tags_list acc = inl e -> exists msg, e = ValueError msg.
Proof.
  revert acc. induction tags_list as [|tag rest IH]; intros acc; simpl; [discriminate|].
  destruct (Py.split "=" tag) as [|k [|v [|x pieces]]]; try (intros [= <-]; eauto).
  apply IH.
Qed.

(** Whatever the input, the only error [unpack_tags] raises is the format
    error, whose text is fixed. *)
Lemma unpack_tags_error (tags : option string) (e : exn) :
  unpack_tags tags = inl e -> e = tags_format_error.
Proof.
  destruct tags as [[|c s]|]; simpl; try discriminate.
  destruct (unpack_loop _ _) as [e'|l] eqn:E; [|discriminate].
  destruct (unpack_loop_error _ _ _ E) as [msg ->]. intros [= <-]. reflexivity.
Qed.

Lemma unpack_loop_malformed (tags_list : list string) (acc : list (string * string)) (tag : string) :
  In tag tags_list -> Py.has_char "=" tag = false ->
  exists e, unpack_loop tags_list acc = inl e.
Proof.
  intros Hin Htag. revert acc.
  induction tags_list as [|t rest IH]; intros acc; [destruct Hin|]. simpl.
  destruct Hin as [->|Hin].
  - rewrite (split_plain _ _ Htag). eauto.
  - destruct (Py.split "=" t) as [|k [|v [|x pieces]]]; eauto.
Qed.

(** A pair with no [=] in it makes [unpack_tags] raise the format error
    (the empty text is no tags at all, not a malformed pair). *)
Lemma unpack_tags_malformed (tags tag : string) :
  tags <> EmptyString ->
  In tag (Py.split ";" tags) -> Py.has_char "=" tag = false ->
  unpack_tags (Some tags) = inl tags_format_error.
Proof.
  intros Hne Hin Htag.
  destruct (unpack_loop_malformed _ [] _ Hin Htag) as [e He].
  destruct (unpack_tags (Some tags)) as [e'|l] eqn:E.
  - f_equal. eapply unpack_tags_error, E.
  - exfalso. destruct tags as [|c s]; simpl in *.
    + congruence.
    + rewrite He in E. destruct (unpack_loop_error _ _ _ He) as [msg ->]. discriminate.
Qed.

(** C8 (the error message): on the malformed input [owner] the format error
    is raised, and its message holds the literal text [{tags}], not the
    input. *)
Lemma unpack_tags_message_omits_input :
  unpack_tags (Some "owner")
    = inl (ValueError
        "Tags must be in the format 'key1=value1;key2=value2', but instead got {tags}")
  /\ Py.contains
       "Tags must be in the format 'key1=value1;key2=value2', but instead got {tags}"
       "owner" = false.
Proof. split; reflexivity. Qed.

(** ** Runs *)

Section Runs.
Context {W : Type} `{World W}.

Lemma bind_inv {A B} (m : M W A) (k : A -> M W B) w o w' t :
  bind m k w = (o, w', t) ->
  (exists e, m w = (Raise e, w', t) /\ o = Raise e)
  \/ (exists a w1 t1 t2,
        m w = (Return a, w1, t1) /\ k a w1 = (o, w', t2) /\ t = t1 ++ t2).
Proof.
  unfold bind. destruct (m w) as [[[a|e] w1] t1].
  - destruct (k a w1) as [[o2 w2] t2] eqn:Ek. intros [= <- <- <-].
    right. exists a, w1, t1, t2. auto.
  - intros [= <- <- <-]. left. eauto.
Qed.

Lemma bind_Return {A B} (m : M W A) (k : A -> M W B) w a w1 t1 :
  m w = (Return a, w1, t1) ->
  bind m k w = match k a w1 with (o, w2, t2) => (o, w2, t1 ++ t2) end.
Proof. unfold bind. intros ->. reflexivity. Qed.

Lemma bind_Raise {A B} (m : M W A) (k : A -> M W B) w e w1 t1 :
  m w = (Raise e, w1, t1) -> bind m k w = (Raise e, w1, t1).
Proof. unfold bind. intros ->. reflexivity. Qed.

Lemma bind_ret {A B} (a : A) (k : A -> M W B) w :
  bind (ret a) k w = match k a w with (o, w2, t2) => (o, w2, t2) end.
Proof. reflexivity. Qed.

Lemma bind_emit {B} (ev : event) (k : unit -> M W B) w :
  bind (emit ev) k w = match k tt w with (o, w2, t2) => (o, w2, ev :: t2) end.
Proof. reflexivity. Qed.

Lemma try_except_inv {A} (m : M W A) handler w o w' t :
  try_except m handler w = (o, w', t) ->
  (exists a, m w = (Return a, w', t) /\ o = Return a)
  \/ (exists e, m w = (Raise e, w', t) /\ handler e = None /\ o = Raise e)
  \/ (exists e w1 t1 k t2,
        m w = (Raise e, w1, t1) /\ handler e = Some k
        /\ k w1 = (o, w', t2) /\ t = t1 ++ t2).
Proof.
  unfold try_except. destruct (m w) as [[[a|e] w1] t1].
  - intros [= <- <- <-]. left. eauto.
  - destruct (handler e) as [k|] eqn:Eh.
    + destruct (k w1) as [[o2 w2] t2] eqn:Ek. intros [= <- <- <-].
      right. right. exists e, w1, t1, k, t2. auto.
    + intros [= <- <- <-]. right. left. eauto.
Qed.

Lemma try_except_Return {A} (m : M W A) handler w a w1 t1 :
  m w = (Return a, w1, t1) -> try_except m handler w = (Return a, w1, t1).
Proof. unfold try_except. intros ->. reflexivity. Qed.

Lemma try_except_Raise {A} (m : M W A) handler w e w1 t1 :
  m w = (Raise e, w1, t1) ->
  try_except m handler w
  = match handler e with
    | Some k => match k w1 with (o, w2, t2) => (o, w2, t1 ++ t2) end
    | None => (Raise e, w1, t1)
    end.
Proof. unfold try_except. intros ->. reflexivity. Qed.


Lemma call_Return {T} (r : request T) w v w1 :
  respond r w = (inr v, w1) -> call r w = (Return v, w1, [Call r (inr v)]).
Proof. unfold call. intros ->. reflexivity. Qed.

Lemma call_Raise {T} (r : request T) w e w1 :
  respond r w = (inl e, w1) -> call r w = (Raise e, w1, [Call r (inl e)]).
Proof. unfold call. intros ->. reflexivity. Qed.

Lemma call_inv {T} (r : request T) w o w' t :
  call r w = (o, w', t) ->
  exists reply, respond r w = (reply, w') /\ t = [Call r reply]
    /\ o = match reply with inr v => Return v | inl e => Raise e end.
Proof.
  unfold call. destruct (respond r w) as [[e|v] w1]; intros [= <- <- <-]; eauto.
Qed.

Lemma lift_inv {A} (r : exn + A) w o w' t :
  lift (W:=W) r w = (o, w', t) ->
  w' = w /\ t = [] /\ o = match r with inr a => Return a | inl e => Raise e end.
Proof. destruct r; intros [= <- <- <-]; auto. Qed.
End Runs.

(** ** Configuration *)

Lemma init_keeps_prefix (params : ConfigParams) (cfg : Ec2SandboxEnvironmentConfig) :
  Ec2SandboxEnvironmentConfig_init params = inr cfg ->
  p_s3_key_prefix params = Some (s3_key_prefix cfg).
Proof.
  unfold Ec2SandboxEnvironmentConfig_init, and_then, required.
  repeat match goal with
         | |- context [match ?f params with _ => _ end] => destruct (f params)
         end; try discriminate.
  intros [= <-]. reflexivity.
Qed.

Section ConfigurationProperties.
Context {W : Type} `{World W}.

(** What [from_settings] returns carries the key prefix it was given (the
    keyword argument, else the setting, else the empty prefix), and that
    prefix passed the check. *)
Lemma from_settings_returns (kwargs : ConfigOverrides) (w : W)
    (cfg : Ec2SandboxEnvironmentConfig) :
  outcome_of (from_settings kwargs w) = Return cfg ->
  Py.startswith (s3_key_prefix cfg) "/" = false
  /\ exists settings_ w1,
       respond load_settings w = (inr settings_, w1)
       /\ s3_key_prefix cfg
          = default "" (default (st_s3_key_prefix settings_) (kw_s3_key_prefix kwargs)).
Proof.
  unfold outcome_of, from_settings.
  destruct (bind _ _ w) as [[o w'] t] eqn:E. simpl. intros ->.
  apply bind_inv in E as [(e & _ & [=])|(settings_ & w1 & t1 & t2 & Hload & E & _)].
  apply call_inv in Hload as (reply & Hload & _ & Hreply).
  destruct reply as [e|s]; [discriminate|]. injection Hreply as <-.
  apply bind_inv in E as [(e & _ & [=])|(tags & w2 & t3 & t4 & _ & E & _)].
  apply bind_inv in E as [(e & _ & [=])|(region_ & w3 & t5 & t6 & _ & E & _)].
  apply bind_inv in E as [(e & _ & [=])|(ami_id_ & w4 & t7 & t8 & _ & E & _)].
  simpl in E.
  destruct (Py.startswith _ "/") eqn:Hslash; [discriminate|].
  apply lift_inv in E as (_ & _ & E).
  destruct (Ec2SandboxEnvironmentConfig_init _) as [e|cfg'] eqn:Hinit; [discriminate|].
  injection E as ->.
  apply init_keeps_prefix in Hinit. simpl in Hinit. injection Hinit as Hp.
  rewrite <- Hp. split; [exact Hslash|]. eauto.
Qed.

(** C7, as the code has it: [from_settings] never returns a configuration
    whose key prefix starts with [/], and it raises whenever the prefix it
    is given (the keyword argument, else the setting, else the empty
    prefix) starts with [/], whatever the other fields are. *)
Theorem from_settings_checks_prefix (kwargs : ConfigOverrides) (w : W) :
  (forall cfg,
      outcome_of (from_settings kwargs w) = Return cfg ->
      Py.startswith (s3_key_prefix cfg) "/" = false)
  /\ (forall settings_ w1,
        respond load_settings w = (inr settings_, w1) ->
        Py.startswith
          (default "" (default (st_s3_key_prefix settings_) (kw_s3_key_prefix kwargs)))
          "/" = true ->
        exists e, outcome_of (from_settings kwargs w) = Raise e).
Proof.
  split.
  - intros cfg Hcfg. apply (from_settings_returns kwargs w cfg Hcfg).
  - intros settings_ w1 Hload Hslash.
    destruct (outcome_of (from_settings kwargs w)) as [cfg|e] eqn:Hrun; [|eauto].
    destruct (from_settings_returns kwargs w cfg Hrun)
      as (Hok & settings' & w1' & Hload' & Hprefix).
    rewrite Hload in Hload'. injection Hload' as <- <-.
    rewrite Hprefix, Hslash in Hok. discriminate.
Qed.

(** C9, as the code has it: called with a target id, [cli_cleanup] prints
    the notice that cleanup by id is not implemented, asks nothing of the
    control plane, and returns normally. *)
Theorem cli_cleanup_by_id_prints_notice (id : string) (w : W) :
  cli_cleanup (Some id) w
  = (Return tt, w,
     [Printed (Text (newline +:+ "[red]Cleanup by ID not implemented[/red]"
                     +:+ newline))]).
Proof. reflexivity. Qed.
End ConfigurationProperties.

(** C7, counterexample: the class constructor, reached through
    [config_deserialize], accepts a key prefix that starts with [/]. *)
Lemma config_deserialize_accepts_leading_slash :
  exists cfg,
    outcome_of (config_deserialize slash_params quiet) = Return cfg
    /\ Py.startswith (s3_key_prefix cfg) "/" = true.
Proof. eexists. split; reflexivity. Qed.

(** C7 at work: the settings of [configured] give the prefix [runs/] and
    the configuration is returned; with the prefix [/runs/] the same
    settings are refused. *)
Lemma from_settings_checks_prefix_witness :
  outcome_of (from_settings no_overrides configured) = Return configured_config
  /\ Py.startswith (s3_key_prefix configured_config) "/" = false
  /\ outcome_of (from_settings slash_override configured)
     = Raise (ValueError "S3 key prefix '/runs/' must not start with a '/'")
  /\ exists e, outcome_of (from_settings slash_override configured) = Raise e.
Proof.
  split; [reflexivity|]. split; [|split; [reflexivity|]].
  - apply (from_settings_checks_prefix no_overrides configured). reflexivity.
  - apply (from_settings_checks_prefix slash_override configured) with full_settings configured;
      reflexivity.
Defined.

(** C9, counterexample: a cleanup targeted at an id completes normally; no
    error reaches the caller. *)
Lemma cli_cleanup_by_id_returns :
  outcome_of (cli_cleanup (Some "i-0abc") quiet) = Return tt.
Proof. reflexivity. Qed.

(** ** [exec] *)

Section ExecProperties.
Context {W : Type} `{World W}.
Variable limits : SandboxEnvironmentLimits.
Variable self : Ec2SandboxEnvironment.

(** [exec] is its warnings followed by a run that reads neither [input]
    nor [user]. *)
Lemma exec_warns_then_runs cmd input cwd env user timeout timeout_retry (w : W) :
  exec limits self cmd input cwd env user timeout timeout_retry w
  = match exec limits self cmd None cwd env None timeout timeout_retry w with
    | (o, w', t) => (o, w', warnings_of input user ++ t)
    end.
Proof.
  unfold exec, warnings_of, log.
  set (rest := bind (_s3_key_prefix self "exec") _).
  destruct input, user; repeat (rewrite bind_emit || rewrite bind_ret);
    destruct (rest w) as [[o w'] t]; reflexivity.
Qed.

Lemma requests_warnings input user (t : list event) :
  requests (warnings_of input user ++ t) = requests t.
Proof. destruct input, user; reflexivity. Qed.

(** C10: two calls of [exec] that differ only in [input] and [user] end
    alike, leave the same world and make the same requests, the command
    batch sent to the relay among them; only the logged warnings differ. *)
Theorem exec_ignores_input_and_user cmd cwd env timeout timeout_retry
    (input1 input2 : option bytes) (user1 user2 : option string) (w : W) :
  let run1 := exec limits self cmd input1 cwd env user1 timeout timeout_retry w in
  let run2 := exec limits self cmd input2 cwd env user2 timeout timeout_retry w in
  outcome_of run1 = outcome_of run2
  /\ world_of run1 = world_of run2
  /\ requests (trace_of run1) = requests (trace_of run2).
Proof.
  simpl.
  rewrite (exec_warns_then_runs cmd input1 cwd env user1),
          (exec_warns_then_runs cmd input2 cwd env user2).
  destruct (exec limits self cmd None cwd env None timeout timeout_retry w)
    as [[o w'] t].
  unfold outcome_of, world_of, trace_of. simpl.
  rewrite !requests_warnings. auto.
Qed.
End ExecProperties.

(** ** [exec], end to end on the scripted world *)

(** [echo hello]: the result carries the output stream, and the stream
    object is deleted afterwards. *)
Lemma exec_echo_hello :
  let run := exec inspect_ai_limits test_env ["echo"; "hello"] None None [] None None true
               greeted in
  outcome_of run
    = Return {| success := true; returncode := 0;
                stdout := "hello" +:+ newline; stderr := "" |}
  /\ objects (world_of run) = ∅.
Proof. vm_compute. split; reflexivity. Qed.

(** Output at or above the ceiling: [exec] raises the truncation signal
    with the first bytes of the stream. *)
Lemma exec_output_truncated :
  outcome_of (exec small_limits test_env ["echo"; "hello"] None None [] None None true greeted)
  = Raise (OutputLimitExceededError "10 MiB" (Some "hell")).
Proof. reflexivity. Qed.

(** ** The readiness wait *)

Section ReadinessProperties.
Context {W : Type} `{World W}.






End ReadinessProperties.

(** What the condition on the answers is for: the code reads the first
    record and does not count them, so on an answer that lists one instance
    twice, the first record Online, it signals readiness. *)
Lemma wait_for_ssm_ready_with_two_records :
  let run := _wait_for_ssm "i-0abc" "eu-west-2" (set_inventory quiet [inr online_twice]) in
  outcome_of run = Return true
  /\ trace_of run
     = [Call (describe_instance_information "eu-west-2" ["i-0abc"]) (inr online_twice)]
  /\ length online_twice = 2%nat.
Proof. repeat split. Qed.


(** An agent that never registers: 20 polls, 19 sleeps of 30, then
    [RetryError] around the last [Not ready]. *)
Lemma wait_for_ssm_gives_up :
  let run := _wait_for_ssm "i-0abc" "eu-west-2" quiet in
  outcome_of run = Raise (RetryError (Exception "Not ready"))
  /\ trace_of run
     = polls (describe_instance_information "eu-west-2" ["i-0abc"]) 30
         (repeat (inr []) 20).
Proof. split; reflexivity. Qed.

(** ** Result retrieval *)

Lemma length_string_of_list_byte (l : bytes) :
  String.length (string_of_list_byte l) = length l.
Proof. induction l as [|b l IH]; simpl; [reflexivity|]. f_equal. exact IH. Qed.

Lemma encode_decode (b : bytes) (s : string) :
  decode_utf8 b = inr s -> encode_utf8 s = b.
Proof.
  unfold decode_utf8, encode_utf8. destruct (utf8_valid b); [|discriminate].
  intros [= <-]. apply list_byte_of_string_of_list_byte.
Qed.

Section RetrievalProperties.
Context {W : Type} `{World W}.
Variable limits : SandboxEnvironmentLimits.
Variable self : Ec2SandboxEnvironment.

Lemma get_s3_file_size_run (key : string) (w : W) reply w1 :
  respond (head_object (s3_bucket (config self)) key) w = (reply, w1) ->
  _get_s3_file_size self key w
  = (match reply with
     | inr probe => Return (default 0 (ContentLength probe))
     | inl (ClientError (Some code)) =>
         if String.eqb code "404" then Raise (KeyError key)
         else Raise (ClientError (Some code))
     | inl e => Raise e
     end, w1, [Call (head_object (s3_bucket (config self)) key) reply]).
Proof.
  intros Hhead. unfold _get_s3_file_size, try_except, bind, call.
  rewrite Hhead. destruct reply as [e|probe]; [|reflexivity].
  destruct e as [| | | | | | | | |[code|]| | |]; try reflexivity.
  simpl. destruct (String.eqb code "404"); reflexivity.
Qed.

(** A missing object reads as the empty string. *)
Lemma read_missing (key : string) (limit_bytes : Z) (w : W) :
  reports_missing w (s3_bucket (config self)) key limit_bytes ->
  exists w1 t, _read_s3_file_or_blank self key limit_bytes w = (Return "", w1, t).
Proof.
  unfold reports_missing.
  destruct (respond (head_object (s3_bucket (config self)) key) w) as [[e|probe] w1] eqn:Hhead.
  - intros [-> | ->]; unfold _read_s3_file_or_blank.
    + rewrite (try_except_Raise _ _ _ (KeyError key) w1
                 [Call (head_object (s3_bucket (config self)) key)
                    (inl (ClientError (Some "404")))]).
      * simpl. eauto.
      * erewrite bind_Raise; [reflexivity|].
        rewrite (get_s3_file_size_run _ _ _ _ Hhead). reflexivity.
    + rewrite (try_except_Raise _ _ _ NoSuchKey w1
                 [Call (head_object (s3_bucket (config self)) key) (inl NoSuchKey)]).
      * simpl. eauto.
      * erewrite bind_Raise; [reflexivity|].
        rewrite (get_s3_file_size_run _ _ _ _ Hhead). reflexivity.
  - set (range := if limit_bytes <=? default 0 (ContentLength probe)
                  then Some (0, limit_bytes - 1) else None).
    destruct (respond (get_object (s3_bucket (config self)) key range) w1) as [reply w2] eqn:Hget.
    simpl. intros ->. unfold _read_s3_file_or_blank.
    rewrite (try_except_Raise _ _ _ NoSuchKey w2
               [Call (head_object (s3_bucket (config self)) key) (inr probe);
                Call (get_object (s3_bucket (config self)) key range) (inl NoSuchKey)]).
    + simpl. eauto.
    + erewrite bind_Return by (rewrite (get_s3_file_size_run _ _ _ _ Hhead); reflexivity).
      subst range. destruct (limit_bytes <=? _);
        erewrite bind_Raise by (apply call_Raise, Hget); reflexivity.
Qed.

(** An object below the limit reads whole. *)
Lemma read_whole (key : string) (limit_bytes : Z) (w : W) (content : bytes) :
  holds_object w (s3_bucket (config self)) key content ->
  Z.of_nat (length content) < limit_bytes ->
  _read_s3_file_or_blank self key limit_bytes w
  = (match decode_utf8 content with inr s => Return s | inl e => Raise e end, w,
     [Call (head_object (s3_bucket (config self)) key)
        (inr {| ContentLength := Some (Z.of_nat (length content)) |});
      Call (get_object (s3_bucket (config self)) key None) (inr content)]).
Proof.
  intros (Hhead & Hget & _) Hsmall. unfold _read_s3_file_or_blank.
  assert (Hbody :
    bind (_get_s3_file_size self key)
      (fun file_size =>
         if limit_bytes <=? file_size
         then bind (call (get_object (s3_bucket (config self)) key (Some (0, limit_bytes - 1))))
                (fun response_body =>
                   bind (lift (decode_utf8 response_body))
                     (fun truncated_output_ =>
                        raise (OutputLimitExceededError "10 MiB" (Some truncated_output_))))
         else bind (call (get_object (s3_bucket (config self)) key None))
                (fun response_body => lift (decode_utf8 response_body))) w
    = (match decode_utf8 content with inr s => Return s | inl e => Raise e end, w,
       [Call (head_object (s3_bucket (config self)) key)
          (inr {| ContentLength := Some (Z.of_nat (length content)) |});
        Call (get_object (s3_bucket (config self)) key None) (inr content)])).
  { erewrite bind_Return by (rewrite (get_s3_file_size_run _ _ _ _ Hhead); reflexivity).
    simpl. destruct (Z.leb_spec limit_bytes (Z.of_nat (length content))); [lia|].
    erewrite bind_Return by (apply call_Return, Hget).
    destruct (decode_utf8 content); reflexivity. }
  unfold try_except. rewrite Hbody.
  destruct (decode_utf8 content) as [e|s] eqn:Hdec; [|reflexivity].
  unfold decode_utf8 in Hdec. destruct (utf8_valid content); [discriminate|].
  injection Hdec as <-. reflexivity.
Qed.

(** An object at or above the limit is fetched by range and reported as
    truncated. *)
Lemma read_truncated (key : string) (limit_bytes : Z) (w : W) (content : bytes) :
  holds_object w (s3_bucket (config self)) key content ->
  1 <= limit_bytes <= Z.of_nat (length content) ->
  _read_s3_file_or_blank self key limit_bytes w
  = (match decode_utf8 (take (Z.to_nat limit_bytes) content) with
     | inr s => Raise (OutputLimitExceededError "10 MiB" (Some s))
     | inl e => Raise e
     end, w,
     [Call (head_object (s3_bucket (config self)) key)
        (inr {| ContentLength := Some (Z.of_nat (length content)) |});
      Call (get_object (s3_bucket (config self)) key (Some (0, limit_bytes - 1)))
        (inr (take (Z.to_nat limit_bytes) content))]).
Proof.
  intros (Hhead & _ & Hrange) Hlarge. unfold _read_s3_file_or_blank.
  specialize (Hrange (limit_bytes - 1) ltac:(lia) ltac:(lia)).
  replace (limit_bytes - 1 + 1) with limit_bytes in Hrange by lia.
  assert (Hbody :
    bind (_get_s3_file_size self key)
      (fun file_size =>
         if limit_bytes <=? file_size
         then bind (call (get_object (s3_bucket (config self)) key (Some (0, limit_bytes - 1))))
                (fun response_body =>
                   bind (lift (decode_utf8 response_body))
                     (fun truncated_output_ =>
                        raise (OutputLimitExceededError "10 MiB" (Some truncated_output_))))
         else bind (call (get_object (s3_bucket (config self)) key None))
                (fun response_body => lift (decode_utf8 response_body))) w
    = (match decode_utf8 (take (Z.to_nat limit_bytes) content) with
       | inr s => Raise (OutputLimitExceededError "10 MiB" (Some s))
       | inl e => Raise e
       end, w,
       [Call (head_object (s3_bucket (config self)) key)
          (inr {| ContentLength := Some (Z.of_nat (length content)) |});
        Call (get_object (s3_bucket (config self)) key (Some (0, limit_bytes - 1)))
          (inr (take (Z.to_nat limit_bytes) content))])).
  { erewrite bind_Return by (rewrite (get_s3_file_size_run _ _ _ _ Hhead); reflexivity).
    simpl. destruct (Z.leb_spec limit_bytes (Z.of_nat (length content))); [|lia].
    erewrite bind_Return by (apply call_Return, Hrange).
    destruct (decode_utf8 _); reflexivity. }
  unfold try_except. rewrite Hbody.
  destruct (decode_utf8 _) as [e|s] eqn:Hdec; [|reflexivity].
  unfold decode_utf8 in Hdec. destruct (utf8_valid _); [discriminate|].
  injection Hdec as <-. reflexivity.
Qed.

(** The download of [read_file] on an object at or above its ceiling. *)
Lemma read_file_download_truncated (file file_key : string) (text : bool)
    (w : W) (content : bytes) :
  holds_object w (s3_bucket (config self)) file_key content ->
  1 <= MAX_READ_FILE_SIZE limits <= Z.of_nat (length content) ->
  read_file_download limits self file file_key text w
  = (Raise (OutputLimitExceededError (MAX_READ_FILE_SIZE_STR limits) None), w,
     [Call (head_object (s3_bucket (config self)) file_key)
        (inr {| ContentLength := Some (Z.of_nat (length content)) |});
      Call (get_object (s3_bucket (config self)) file_key (Some (0, MAX_READ_FILE_SIZE limits - 1)))
        (inr (take (Z.to_nat (MAX_READ_FILE_SIZE limits)) content))]).
Proof.
  intros (Hhead & _ & Hrange) Hlarge. unfold read_file_download.
  specialize (Hrange (MAX_READ_FILE_SIZE limits - 1) ltac:(lia) ltac:(lia)).
  replace (MAX_READ_FILE_SIZE limits - 1 + 1) with (MAX_READ_FILE_SIZE limits)
    in Hrange by lia.
  erewrite bind_Raise; [reflexivity|].
  erewrite try_except_Raise.
  2:{ erewrite bind_Return by (rewrite (get_s3_file_size_run _ _ _ _ Hhead); reflexivity).
      simpl.
      destruct (Z.leb_spec (MAX_READ_FILE_SIZE limits) (Z.of_nat (length content))); [|lia].
      erewrite bind_Return by (apply call_Return, Hrange). reflexivity. }
  reflexivity.
Qed.
End RetrievalProperties.

Lemma scripted_holds_object (w : Scripted) (bucket key : string) (content : bytes) :
  objects w !! key = Some content -> holds_object w bucket key content.
Proof.
  intros Hkey. unfold holds_object, respond, scripted_world, scripted_respond.
  unfold bytes in *.
  split; [rewrite Hkey; reflexivity|]. split; [rewrite Hkey; reflexivity|].
  intros last Hlast Hlen. rewrite Hkey. f_equal. unfold ranged.
  replace (0 <=? last) with true by (symmetry; apply Z.leb_le; lia).
  replace (0 <? Z.of_nat (length content)) with true by (symmetry; apply Z.ltb_lt; lia).
  simpl. rewrite drop_0. do 2 f_equal. lia.
Qed.

Lemma scripted_reports_missing (w : Scripted) (bucket key : string) (limit_bytes : Z) :
  objects w !! key = None -> reports_missing w bucket key limit_bytes.
Proof.
  intros Hkey. unfold reports_missing, respond, scripted_world, scripted_respond.
  unfold bytes in *. rewrite Hkey. left. reflexivity.
Qed.

Section RetrievalClaims.
Context {W : Type} `{World W}.
Variable limits : SandboxEnvironmentLimits.
Variable self : Ec2SandboxEnvironment.

(** C4: for a key the object store reports missing, at the size probe or
    at the content fetch, and for every limit, [_read_s3_file_or_blank]
    returns the empty string; the not-found error is not raised. *)
Theorem read_blank_on_missing_key (key : string) (limit_bytes : Z) (w : W) :
  reports_missing w (s3_bucket (config self)) key limit_bytes ->
  outcome_of (_read_s3_file_or_blank self key limit_bytes w) = Return "".
Proof.
  intros Hmissing.
  destruct (read_missing self key limit_bytes w Hmissing) as (w1 & t & ->).
  reflexivity.
Qed.

(** C3, as the code has it, for an object the store holds: content of
    [limit - 1] bytes that is UTF-8 is returned whole; content of [limit]
    bytes or more, for a limit of at least 1, whose first [limit] bytes are
    UTF-8 raises the truncation signal with those [limit] bytes as partial
    content; and [read_file], once the upload went through, raises the
    truncation signal with no content when the object has at least
    [MAX_READ_FILE_SIZE] bytes. *)
Theorem read_at_the_limit (key : string) (content : bytes) (w : W) :
  holds_object w (s3_bucket (config self)) key content ->
  (forall limit_bytes,
      Z.of_nat (length content) = limit_bytes - 1 ->
      utf8_valid content = true ->
      outcome_of (_read_s3_file_or_blank self key limit_bytes w)
        = Return (string_of_list_byte content))
  /\ (forall limit_bytes,
        1 <= limit_bytes <= Z.of_nat (length content) ->
        utf8_valid (take (Z.to_nat limit_bytes) content) = true ->
        exists partial,
          outcome_of (_read_s3_file_or_blank self key limit_bytes w)
            = Raise (OutputLimitExceededError "10 MiB" (Some partial))
          /\ encode_utf8 partial = take (Z.to_nat limit_bytes) content
          /\ Z.of_nat (String.length partial) = limit_bytes)
  /\ (1 <= MAX_READ_FILE_SIZE limits <= Z.of_nat (length content) ->
      forall file text w0 t0,
        read_file_upload limits self file w0 = (Return key, w, t0) ->
        outcome_of (read_file limits self file text w0)
          = Raise (OutputLimitExceededError (MAX_READ_FILE_SIZE_STR limits) None)).
Proof.
  intros Hobject. repeat split.
  - intros limit_bytes Hlen Hutf8.
    rewrite (read_whole self key limit_bytes w content Hobject) by lia.
    unfold decode_utf8. rewrite Hutf8. reflexivity.
  - intros limit_bytes Hlen Hutf8.
    exists (string_of_list_byte (take (Z.to_nat limit_bytes) content)).
    rewrite (read_truncated self key limit_bytes w content Hobject Hlen).
    unfold decode_utf8. rewrite Hutf8. repeat split.
    + apply list_byte_of_string_of_list_byte.
    + rewrite length_string_of_list_byte, length_take. lia.
  - intros Hlen file text w0 t0 Hupload. unfold read_file.
    erewrite bind_Return by exact Hupload.
    rewrite (read_file_download_truncated limits self file key text w content Hobject Hlen).
    reflexivity.
Qed.
End RetrievalClaims.

(** C4 at work: a key the empty bucket does not hold. *)
Lemma read_blank_on_missing_key_witness :
  outcome_of (_read_s3_file_or_blank test_env "no/such/key" 10 quiet) = Return "".
Proof.
  apply (read_blank_on_missing_key test_env "no/such/key" 10 quiet).
  left. reflexivity.
Defined.

(** C3 at work, on the six bytes stored under [notes_key]: limit 7 returns
    them, limits 6 and 3 raise the truncation signal with the first 6 and 3
    bytes, and [read_file] under a ceiling of 4 raises it with no content. *)
Lemma read_at_the_limit_witness :
  outcome_of (_read_s3_file_or_blank test_env notes_key 7 stocked) = Return "abcdef"
  /\ outcome_of (_read_s3_file_or_blank test_env notes_key 6 stocked)
     = Raise (OutputLimitExceededError "10 MiB" (Some "abcdef"))
  /\ outcome_of (_read_s3_file_or_blank test_env notes_key 3 stocked)
     = Raise (OutputLimitExceededError "10 MiB" (Some "abc"))
  /\ outcome_of (read_file small_limits test_env "notes.txt" true stocked)
     = Raise (OutputLimitExceededError "4 B" None).
Proof.
  destruct (read_at_the_limit small_limits test_env notes_key (bytes_of "abcdef") stocked)
    as (Hwhole & Htruncated & Hfile).
  { apply scripted_holds_object. reflexivity. }
  split; [|split; [|split]].
  - apply (Hwhole 7); reflexivity.
  - destruct (Htruncated 6) as (partial & -> & Hpartial & _);
      [simpl; lia|reflexivity|].
    unfold encode_utf8 in Hpartial.
    rewrite <- (string_of_list_byte_of_string partial), Hpartial. reflexivity.
  - destruct (Htruncated 3) as (partial & -> & Hpartial & _);
      [simpl; lia|reflexivity|].
    unfold encode_utf8 in Hpartial.
    rewrite <- (string_of_list_byte_of_string partial), Hpartial. reflexivity.
  - apply (Hfile ltac:(simpl; lia) "notes.txt" true stocked
             (trace_of (read_file_upload small_limits test_env "notes.txt" stocked))).
    vm_compute. reflexivity.
Defined.

(** C3, counterexample: an object of two bytes, one accented letter, read
    with limit 1 raises a decoding error, not the truncation signal; and an
    object of one byte that is no UTF-8, read with limit 2, is not returned
    either. *)
Lemma read_at_the_limit_fails_on_split_character :
  objects stocked !! "accent" = Some [xc3; xa9]
  /\ outcome_of (_read_s3_file_or_blank test_env "accent" 1 stocked) = Raise UnicodeDecodeError
  /\ objects stocked !! "binary" = Some [xff]
  /\ outcome_of (_read_s3_file_or_blank test_env "binary" 2 stocked) = Raise UnicodeDecodeError.
Proof. repeat split. Qed.

(** ** Footprints: the object-store methods ask nothing of the relay *)

Lemma no_relay_reply (t : list event) :
  forallb not_relay_reply t = true -> waits t = [] /\ invocations t = [].
Proof.
  induction t as [|ev t IH]; [auto|]. simpl. intros Hall.
  apply andb_true_iff in Hall as [Hev Hall]. destruct (IH Hall) as [Hw Hi].
  unfold waits, invocations in *. simpl. rewrite Hw, Hi.
  destruct ev as [T r reply| | |]; try discriminate; auto.
  destruct r; try discriminate; auto.
Qed.

Lemma storage_is_not_relay_reply (ev : event) :
  is_storage ev = true -> not_relay_reply ev = true.
Proof.
  destruct ev as [T r reply| | |]; try reflexivity. destruct r; try discriminate; reflexivity.
Qed.

Lemma fetch_is_storage (ev : event) : is_fetch ev = true -> is_storage ev = true.
Proof.
  destruct ev as [T r reply| | |]; try discriminate; try reflexivity.
  destruct r; try discriminate; reflexivity.
Qed.

Lemma fetch_is_not_deletion (ev : event) : is_fetch ev = true -> not_deletion ev = true.
Proof.
  destruct ev as [T r reply| | |]; try discriminate; try reflexivity.
  destruct r; try discriminate; reflexivity.
Qed.

Section Footprints.
Context {W : Type} `{World W}.

Lemma only_ret {A} (a : A) : forall P, only P (ret (W:=W) a).
Proof. intros P w. reflexivity. Qed.

Lemma only_raise {A} (e : exn) : forall P, only P (raise (W:=W) (A:=A) e).
Proof. intros P w. reflexivity. Qed.

Lemma only_lift {A} (r : exn + A) : forall P, only P (lift (W:=W) r).
Proof. destruct r; intros P w; reflexivity. Qed.

Lemma only_log P level msg exc :
  P (Logged level msg exc) = true -> only P (log (W:=W) level msg exc).
Proof. intros HP w. simpl. rewrite HP. reflexivity. Qed.

Lemma only_call P {T} (r : request T) :
  (forall reply, P (Call r reply) = true) -> only P (call (W:=W) r).
Proof.
  intros Hr w. unfold call. destruct (respond r w) as [[e|v] w1];
    unfold snd, forallb; rewrite Hr; reflexivity.
Qed.

Lemma only_bind P {A B} (m : M W A) (k : A -> M W B) :
  only P m -> (forall a, only P (k a)) -> only P (bind m k).
Proof.
  intros Hm Hk w. unfold bind. specialize (Hm w).
  destruct (m w) as [[[a|e] w1] t1]; [|exact Hm].
  specialize (Hk a w1). destruct (k a w1) as [[o w2] t2]. simpl in *.
  rewrite forallb_app, Hm, Hk. reflexivity.
Qed.

Lemma only_try_except P {A} (m : M W A) handler :
  only P m ->
  (forall e k, handler e = Some k -> only P k) ->
  only P (try_except m handler).
Proof.
  intros Hm Hh w. unfold try_except. specialize (Hm w).
  destruct (m w) as [[[a|e] w1] t1]; [exact Hm|].
  destruct (handler e) as [k|] eqn:Ek; [|exact Hm].
  specialize (Hh e k Ek w1). destruct (k w1) as [[o w2] t2]. simpl in *.
  rewrite forallb_app, Hm, Hh. reflexivity.
Qed.

Lemma only_weaken (P Q : event -> bool) {A} (m : M W A) :
  (forall ev, P ev = true -> Q ev = true) -> only P m -> only Q m.
Proof.
  intros HPQ Hm w. specialize (Hm w). destruct (m w) as [ow t]. simpl in *.
  induction t as [|ev t IH]; [reflexivity|]. simpl in *.
  apply andb_true_iff in Hm as [Hev Ht]. rewrite (HPQ _ Hev), (IH Ht). reflexivity.
Qed.

Variable self : Ec2SandboxEnvironment.

Lemma get_s3_file_size_fetches (key : string) : only is_fetch (_get_s3_file_size self key).
Proof.
  apply only_try_except.
  - apply only_bind; [apply only_call; reflexivity|].
    intros a. apply only_ret.
  - intros e k. destruct e as [| | | | | | | | |[code|]| | |]; try discriminate;
      intros [= <-]; [destruct (String.eqb code "404")|]; apply only_raise.
Qed.

Lemma read_fetches (key : string) (limit_bytes : Z) :
  only is_fetch (_read_s3_file_or_blank self key limit_bytes).
Proof.
  apply only_try_except.
  - apply only_bind; [apply get_s3_file_size_fetches|]. intros size.
    destruct (limit_bytes <=? size).
    + apply only_bind; [apply only_call; reflexivity|]. intros body.
      apply only_bind; [apply only_lift|]. intros s. apply only_raise.
    + apply only_bind; [apply only_call; reflexivity|]. intros body.
      apply only_lift.
  - intros e k. destruct (is_NoSuchKey e || is_KeyError e); [|discriminate].
    intros [= <-]. apply only_bind; [apply only_log; reflexivity|].
    intros _. apply only_ret.
Qed.

Lemma read_storage (key : string) (limit_bytes : Z) :
  only is_storage (_read_s3_file_or_blank self key limit_bytes).
Proof. apply (only_weaken is_fetch), read_fetches. apply fetch_is_storage. Qed.

Lemma delete_object_storage (key : string) : only is_storage (_delete_s3_object self key).
Proof.
  apply only_try_except.
  - apply only_bind; [apply only_call; reflexivity|].
    intros _. apply only_log; reflexivity.
  - intros e k [= <-]. apply only_log; reflexivity.
Qed.

Lemma delete_prefix_storage (prefix : string) : only is_storage (_delete_s3_prefix self prefix).
Proof.
  apply only_try_except.
  - apply only_bind; [apply only_call; reflexivity|].
    intros response. destruct (Contents response) as [[|key keys]|];
      try apply only_ret.
    apply only_bind; [apply only_call; reflexivity|].
    intros _. apply only_log; reflexivity.
  - intros e k [= <-]. apply only_log; reflexivity.
Qed.

(** The deletions log their failures and return. *)
Lemma delete_object_returns (key : string) (w : W) :
  outcome_of (_delete_s3_object self key w) = Return tt.
Proof.
  unfold _delete_s3_object, try_except, bind, call, log, emit, outcome_of.
  destruct (respond _ w) as [[e|[]] w1]; reflexivity.
Qed.

Lemma delete_prefix_returns (prefix : string) (w : W) :
  outcome_of (_delete_s3_prefix self prefix w) = Return tt.
Proof.
  unfold _delete_s3_prefix, try_except, bind, call, log, emit, ret, outcome_of.
  destruct (respond _ w) as [[e|[[[|key keys]|]]] w1]; simpl; try reflexivity.
  destruct (respond _ w1) as [[e|[]] w2]; reflexivity.
Qed.
End Footprints.

(** ** Command dispatch *)

Section DispatchProperties.
Context {W : Type} `{World W}.
Variable limits : SandboxEnvironmentLimits.
Variable self : Ec2SandboxEnvironment.

(** The wait ended in a [WaiterError] whose last response is still
    [InProgress]: the handler logs, cancels, and raises what the cancel
    call raised or else the timeout. *)
Lemma on_waiter_error_in_progress command_id stdout_key stderr_key lr (w : W) reply w1 :
  lr_Status lr = Some "InProgress" ->
  respond (cancel_command command_id [instance_id self]) w = (reply, w1) ->
  on_waiter_error limits self command_id stdout_key stderr_key (WaiterError lr) lr w
  = (Raise match reply with
           | inl e => e
           | inr _ => TimeoutError "Command execution timed out."
           end, w1,
     [Logged DEBUG "Command execution failed: " (Some (WaiterError lr));
      Logged DEBUG "Command status: InProgress" None;
      Logged WARNING "Command is still running, killing it." None;
      Call (cancel_command command_id [instance_id self]) reply]).
Proof.
  intros Hstatus Hcancel. unfold on_waiter_error, log, bind, emit, call.
  rewrite Hstatus. simpl. rewrite Hcancel.
  destruct reply as [e|[]]; reflexivity.
Qed.


(** X15: when the cancel call itself fails, its error is what the caller gets. *)
Lemma run_command_cancel_failure (s3_key_prefix_ : string) (params : Parameters)
    (timeout : option Z) (w : W) command_id w1 lr w2 e w3 :
  respond (send_command [instance_id self] "AWS-RunShellScript" params
             (s3_bucket (config self)) s3_key_prefix_) w = (inr command_id, w1) ->
  respond (wait_command_executed command_id (instance_id self) 1
             (Py.int_or timeout 3600)) w1 = (inl (WaiterError lr), w2) ->
  lr_Status lr = Some "InProgress" ->
  respond (cancel_command command_id [instance_id self]) w2 = (inl e, w3) ->
  outcome_of (_run_command limits self s3_key_prefix_ params timeout w) = Raise e.
Proof.
  intros Hsend Hwait Hstatus Hcancel. unfold _run_command.
  erewrite bind_Return by (apply call_Return, Hsend).
  erewrite bind_Raise; [reflexivity|].
  erewrite try_except_Raise
    by (unfold wait_and_collect;
        erewrite bind_Raise by (apply call_Raise, Hwait); reflexivity).
  cbv iota beta.
  rewrite (on_waiter_error_in_progress _ _ _ _ _ _ _ Hstatus Hcancel).
  reflexivity.
Qed.
End DispatchProperties.

Section ReturnCode.
Context {W : Type} `{World W}.
Variable limits : SandboxEnvironmentLimits.
Variable self : Ec2SandboxEnvironment.

Lemma events_of_storage {A} (m : M W A) (w : W) o w' t :
  only is_storage m -> m w = (o, w', t) -> waits t = [] /\ invocations t = [].
Proof.
  intros Hm Hrun. apply no_relay_reply.
  apply (only_weaken is_storage not_relay_reply m storage_is_not_relay_reply) in Hm.
  specialize (Hm w). rewrite Hrun in Hm. exact Hm.
Qed.

(** How the [try] block can end, told by the replies of the relay. *)
Lemma wait_and_collect_inv command_id stdout_key stderr_key timeout (w : W) o w' t :
  wait_and_collect limits self command_id stdout_key stderr_key timeout w = (o, w', t) ->
  (exists e, o = Raise e /\ waits t = [inl e] /\ invocations t = [])
  \/ (waits t = [inr tt]
      /\ ((exists e, o = Raise e /\ (invocations t = [] \/ invocations t = [inl e]))
          \/ (exists inv stdout_ stderr_,
                o = Return (default 0 (ResponseCode inv), stdout_, stderr_)
                /\ invocations t = [inr inv]))).
Proof.
  unfold wait_and_collect. intros Hrun.
  apply bind_inv in Hrun as [(e & Hwait & ->)|([] & w1 & t1 & t2 & Hwait & Hrun & ->)];
    apply call_inv in Hwait as (reply & _ & -> & Hreply).
  { left. exists e. destruct reply; inversion Hreply. auto. }
  destruct reply as [|[]]; [discriminate|]. right.
  apply bind_inv in Hrun as [(e & Hout & ->)|(so & w2 & t3 & t4 & Hout & Hrun & ->)].
  { destruct (events_of_storage _ _ _ _ _ (read_storage self _ _) Hout) as [Hw Hi].
    unfold waits, invocations in *. rewrite !omap_app, Hw, Hi. eauto 10. }
  destruct (events_of_storage _ _ _ _ _ (read_storage self _ _) Hout) as [Hw1 Hi1].
  apply bind_inv in Hrun as [(e & Herr & ->)|(se & w3 & t5 & t6 & Herr & Hrun & ->)].
  { destruct (events_of_storage _ _ _ _ _ (read_storage self _ _) Herr) as [Hw Hi].
    unfold waits, invocations in *. rewrite !omap_app, Hw1, Hi1, Hw, Hi. eauto 10. }
  destruct (events_of_storage _ _ _ _ _ (read_storage self _ _) Herr) as [Hw2 Hi2].
  apply bind_inv in Hrun as [(e & Hinv & ->)|(inv & w4 & t7 & t8 & Hinv & Hrun & ->)];
    apply call_inv in Hinv as (answer & _ & -> & Hanswer).
  { destruct answer as [e'|]; inversion Hanswer. subst e'.
    unfold waits, invocations in *. rewrite !omap_app, Hw1, Hi1, Hw2, Hi2. eauto 10. }
  destruct answer as [|inv']; inversion Hanswer. subst inv'.
  injection Hrun as <- <- <-.
  unfold waits, invocations in *. rewrite !omap_app, Hw1, Hi1, Hw2, Hi2. eauto 10.
Qed.

Lemma on_waiter_error_silent command_id stdout_key stderr_key we lr :
  only not_relay_reply
    (on_waiter_error limits self command_id stdout_key stderr_key we lr).
Proof.
  unfold on_waiter_error.
  apply only_bind; [apply only_log; reflexivity|]. intros _.
  apply only_bind.
  { destruct (lr_Status lr) as [status|]; [|apply only_ret].
    apply only_bind; [apply only_log; reflexivity|]. intros _.
    destruct (String.eqb status "InProgress"); [|apply only_ret].
    apply only_bind; [apply only_log; reflexivity|]. intros _.
    apply only_bind; [apply only_call; reflexivity|]. intros _. apply only_raise. }
  intros _.
  apply only_bind;
    [apply (only_weaken is_storage _ _ storage_is_not_relay_reply), read_storage|].
  intros stdout_.
  apply only_bind;
    [apply (only_weaken is_storage _ _ storage_is_not_relay_reply), read_storage|].
  intros stderr_.
  destruct (Py.contains _ _); [apply only_raise|apply only_ret].
Qed.

Lemma on_waiter_error_code command_id stdout_key stderr_key we lr (w : W)
    return_code stdout_ stderr_ w' t :
  on_waiter_error limits self command_id stdout_key stderr_key we lr w
    = (Return (return_code, stdout_, stderr_), w', t) ->
  return_code = default 1 (lr_ResponseCode lr).
Proof.
  unfold on_waiter_error. intros Hrun.
  apply bind_inv in Hrun as [(e & _ & [=])|(? & ? & ? & ? & _ & Hrun & _)].
  apply bind_inv in Hrun as [(e & _ & [=])|(? & ? & ? & ? & _ & Hrun & _)].
  apply bind_inv in Hrun as [(e & _ & [=])|(? & ? & ? & ? & _ & Hrun & _)].
  apply bind_inv in Hrun as [(e & _ & [=])|(? & ? & ? & ? & _ & Hrun & _)].
  destruct (Py.contains _ _); [discriminate|]. injection Hrun as <- _ _ _ _.
  reflexivity.
Qed.

Lemma events_of_silent command_id stdout_key stderr_key we lr (w : W) o w' t :
  on_waiter_error limits self command_id stdout_key stderr_key we lr w = (o, w', t) ->
  waits t = [] /\ invocations t = [].
Proof.
  intros Hrun. apply no_relay_reply.
  pose proof (on_waiter_error_silent command_id stdout_key stderr_key we lr w) as Hs.
  rewrite Hrun in Hs. exact Hs.
Qed.

(** C2, as the code has it: in the result [_run_command] returns, the
    success flag says whether the return code is 0; after a completed
    wait the return code is the relay's [ResponseCode], and 0 when the
    relay gives none; after a wait that ended in [WaiterError] it is the
    [ResponseCode] of the error's last response, and 1 when there is none. *)
Theorem return_code_defaults (s3_key_prefix_ : string) (params : Parameters)
    (timeout : option Z) (w : W) (r : ExecResult) :
  let run := _run_command limits self s3_key_prefix_ params timeout w in
  outcome_of run = Return r ->
  success r = (returncode r =? 0)
  /\ (forall inv, invocations (trace_of run) = [inr inv] ->
                  returncode r = default 0 (ResponseCode inv))
  /\ (forall lr, waits (trace_of run) = [inl (WaiterError lr)] ->
                 returncode r = default 1 (lr_ResponseCode lr)).
Proof.
  intros run. subst run. unfold outcome_of, trace_of.
  destruct (_run_command _ _ _ _ _ w) as [[o w'] t] eqn:Hrun. simpl. intros ->.
  unfold _run_command in Hrun.
  apply bind_inv in Hrun
    as [(e & _ & [=])|(command_id & w1 & t1 & t2 & Hsend & Hrun & ->)].
  apply call_inv in Hsend as (reply & _ & -> & _).
  apply bind_inv in Hrun
    as [(e & _ & [=])|([[return_code stdout_] stderr_] & w2 & t3 & t4 & Htry & Hrun & ->)].
  apply bind_inv in Hrun as [(e & _ & [=])|([] & w3 & t5 & t6 & Hd1 & Hrun & ->)].
  apply bind_inv in Hrun as [(e & _ & [=])|([] & w4 & t7 & t8 & Hd2 & Hrun & ->)].
  apply bind_inv in Hrun as [(e & _ & [=])|([] & w5 & t9 & t10 & Hd3 & Hrun & ->)].
  injection Hrun as <- _ <-.
  destruct (events_of_storage _ _ _ _ _ (delete_object_storage self _) Hd1) as [Hw1 Hi1].
  destruct (events_of_storage _ _ _ _ _ (delete_object_storage self _) Hd2) as [Hw2 Hi2].
  destruct (events_of_storage _ _ _ _ _ (delete_prefix_storage self _) Hd3) as [Hw3 Hi3].
  assert (Hwaits : waits ([Call (send_command [instance_id self] "AWS-RunShellScript"
                                  params (s3_bucket (config self)) s3_key_prefix_) reply]
                          ++ t3 ++ t5 ++ t7 ++ t9 ++ []) = waits t3).
  { unfold waits in *. rewrite !omap_app, Hw1, Hw2, Hw3. simpl. apply app_nil_r. }
  assert (Hinvs : invocations ([Call (send_command [instance_id self] "AWS-RunShellScript"
                                  params (s3_bucket (config self)) s3_key_prefix_) reply]
                          ++ t3 ++ t5 ++ t7 ++ t9 ++ []) = invocations t3).
  { unfold invocations in *. rewrite !omap_app, Hi1, Hi2, Hi3. simpl. apply app_nil_r. }
  rewrite Hwaits, Hinvs. clear Hwaits Hinvs. simpl.
  split; [reflexivity|].
  apply try_except_inv in Htry
    as [(a & Hbody & [= <-])|[(e & _ & _ & [=])|(e & w6 & t11 & k & t12 & Hbody & Hk & Hh & ->)]];
    apply wait_and_collect_inv in Hbody.
  - destruct Hbody as [(e & [=] & _)|(Hw & [(e & [=] & _)|(inv & so & se & [= -> _ _] & Hi)])].
    rewrite Hw, Hi. split.
    + intros inv' [= <-]. reflexivity.
    + intros lr [=].
  - destruct e as [| | | | | | | | | |lr| |]; try discriminate. injection Hk as <-.
    apply on_waiter_error_code in Hh as Hcode.
    destruct (events_of_silent _ _ _ _ _ _ _ _ _ Hh) as [Hw Hi].
    unfold waits, invocations in *. rewrite !omap_app, Hw, Hi, !app_nil_r.
    destruct Hbody as [(e & [= <-] & -> & ->)|(-> & [(e & [= <-] & [->| ->])|(? & ? & ? & [=] & _)])].
    + split; [intros inv [=]|]. intros lr' [= <-]. exact Hcode.
    + split; [intros inv [=]|intros lr' [=]].
    + split; [intros inv [=]|intros lr' [=]].
Qed.
End ReturnCode.



(** C2, counterexample: the command completes, the relay's invocation
    response carries no response code, and the result has return code 0 and
    reports success. *)
Lemma return_code_zero_when_unreported :
  let run := _run_command small_limits test_env "exec/t/" echo_params (Some 5) unreported in
  outcome_of run
    = Return {| success := true; returncode := 0; stdout := ""; stderr := "" |}
  /\ invocations (trace_of run) = [inr {| ResponseCode := None |}].
Proof. split; reflexivity. Qed.

(** C2 at work: no response code after a failed wait gives 1, no response
    code after a completed wait gives 0. *)
Lemma return_code_defaults_witness :
  let failed := _run_command small_limits test_env "exec/t/" echo_params (Some 5) failing in
  let completed :=
    _run_command small_limits test_env "exec/t/" echo_params (Some 5) unreported in
  outcome_of failed
    = Return {| success := false; returncode := 1; stdout := ""; stderr := "" |}
  /\ outcome_of completed
     = Return {| success := true; returncode := 0; stdout := ""; stderr := "" |}
  /\ (1 = default 1 (lr_ResponseCode failed_without_code))
  /\ (0 = default 0 (ResponseCode {| ResponseCode := None |})).
Proof.
  split; [reflexivity|]. split; [reflexivity|]. split.
  - destruct (return_code_defaults small_limits test_env "exec/t/" echo_params (Some 5)
                failing
                {| success := false; returncode := 1; stdout := ""; stderr := "" |})
      as (_ & _ & Hfailed); [reflexivity|].
    apply (Hfailed failed_without_code). reflexivity.
  - destruct (return_code_defaults small_limits test_env "exec/t/" echo_params (Some 5)
                unreported
                {| success := true; returncode := 0; stdout := ""; stderr := "" |})
      as (_ & Hcompleted & _); [reflexivity|].
    apply (Hcompleted {| ResponseCode := None |}). reflexivity.
Defined.

(** ** Cleanup of the per-invocation objects *)

Section CleanupProperties.
Context {W : Type} `{World W}.
Variable limits : SandboxEnvironmentLimits.
Variable self : Ec2SandboxEnvironment.

Lemma delete_object_asks (key : string) (w : W) :
  exists reply,
    In (Call (delete_object (s3_bucket (config self)) key) reply)
       (trace_of (_delete_s3_object self key w)).
Proof.
  unfold _delete_s3_object, try_except, bind, call, log, emit, trace_of.
  destruct (respond _ w) as [[e|[]] w1]; eexists; simpl; left; reflexivity.
Qed.

Lemma delete_prefix_asks (prefix : string) (w : W) :
  exists reply,
    In (Call (list_objects_v2 (s3_bucket (config self)) prefix) reply)
       (trace_of (_delete_s3_prefix self prefix w)).
Proof.
  unfold _delete_s3_prefix, try_except, bind, call, log, emit, ret, trace_of.
  destruct (respond _ w) as [[e|[[[|key keys]|]]] w1]; simpl;
    try (eexists; left; reflexivity).
  destruct (respond _ w1) as [[e|[]] w2]; eexists; simpl; left; reflexivity.
Qed.

(** X16: whenever [_run_command] returns a result, successful or not, it has
    asked for the deletion of the output stream objects and listed the
    per-invocation prefix for deletion. *)
Lemma run_command_cleans_up_before_returning (s3_key_prefix_ : string)
    (params : Parameters) (timeout : option Z) (w : W) (r : ExecResult) :
  let run := _run_command limits self s3_key_prefix_ params timeout w in
  outcome_of run = Return r ->
  exists command_id reply1 reply2 reply3,
    In (Call (send_command [instance_id self] "AWS-RunShellScript" params
                (s3_bucket (config self)) s3_key_prefix_) (inr command_id))
       (trace_of run)
    /\ In (Call (delete_object (s3_bucket (config self))
                   (output_key s3_key_prefix_ command_id (instance_id self) "stdout"))
                reply1) (trace_of run)
    /\ In (Call (delete_object (s3_bucket (config self))
                   (output_key s3_key_prefix_ command_id (instance_id self) "stderr"))
                reply2) (trace_of run)
    /\ In (Call (list_objects_v2 (s3_bucket (config self))
                   (s3_key_prefix_ +:+ command_id +:+ "/")) reply3) (trace_of run).
Proof.
  intros run. subst run. unfold outcome_of, trace_of.
  destruct (_run_command _ _ _ _ _ w) as [[o w'] t] eqn:Hrun. simpl. intros ->.
  unfold _run_command in Hrun.
  apply bind_inv in Hrun
    as [(e & _ & [=])|(command_id & w1 & t1 & t2 & Hsend & Hrun & ->)].
  apply call_inv in Hsend as (reply & _ & -> & Hreply).
  destruct reply as [|cid]; [discriminate|]. injection Hreply as <-.
  apply bind_inv in Hrun
    as [(e & _ & [=])|([[return_code stdout_] stderr_] & w2 & t3 & t4 & _ & Hrun & ->)].
  apply bind_inv in Hrun as [(e & _ & [=])|([] & w3 & t5 & t6 & Hd1 & Hrun & ->)].
  apply bind_inv in Hrun as [(e & _ & [=])|([] & w4 & t7 & t8 & Hd2 & Hrun & ->)].
  apply bind_inv in Hrun as [(e & _ & [=])|([] & w5 & t9 & t10 & Hd3 & Hrun & ->)].
  destruct (delete_object_asks
              (output_key s3_key_prefix_ command_id (instance_id self) "stdout") w2)
    as [reply1 H1].
  destruct (delete_object_asks
              (output_key s3_key_prefix_ command_id (instance_id self) "stderr") w3)
    as [reply2 H2].
  destruct (delete_prefix_asks (s3_key_prefix_ +:+ command_id +:+ "/") w4)
    as [reply3 H3].
  unfold trace_of in *. rewrite Hd1 in H1. rewrite Hd2 in H2. rewrite Hd3 in H3.
  simpl in H1, H2, H3.
  exists command_id, reply1, reply2, reply3.
  repeat split; rewrite ?in_app_iff; simpl; auto 10.
Qed.
End CleanupProperties.

Section RaiseSkipsCleanup.
Context {W : Type} `{World W}.
Variable limits : SandboxEnvironmentLimits.
Variable self : Ec2SandboxEnvironment.

Lemma wait_and_collect_deletes_nothing command_id stdout_key stderr_key timeout :
  only not_deletion
    (wait_and_collect limits self command_id stdout_key stderr_key timeout).
Proof.
  unfold wait_and_collect.
  apply only_bind; [apply only_call; reflexivity|]. intros _.
  apply only_bind; [apply (only_weaken is_fetch _ _ fetch_is_not_deletion), read_fetches|].
  intros stdout_.
  apply only_bind; [apply (only_weaken is_fetch _ _ fetch_is_not_deletion), read_fetches|].
  intros stderr_.
  apply only_bind; [apply only_call; reflexivity|]. intros response. apply only_ret.
Qed.

Lemma on_waiter_error_deletes_nothing command_id stdout_key stderr_key we lr :
  only not_deletion
    (on_waiter_error limits self command_id stdout_key stderr_key we lr).
Proof.
  unfold on_waiter_error.
  apply only_bind; [apply only_log; reflexivity|]. intros _.
  apply only_bind.
  { destruct (lr_Status lr) as [status|]; [|apply only_ret].
    apply only_bind; [apply only_log; reflexivity|]. intros _.
    destruct (String.eqb status "InProgress"); [|apply only_ret].
    apply only_bind; [apply only_log; reflexivity|]. intros _.
    apply only_bind; [apply only_call; reflexivity|]. intros _. apply only_raise. }
  intros _.
  apply only_bind; [apply (only_weaken is_fetch _ _ fetch_is_not_deletion), read_fetches|].
  intros stdout_.
  apply only_bind; [apply (only_weaken is_fetch _ _ fetch_is_not_deletion), read_fetches|].
  intros stderr_.
  destruct (Py.contains _ _); [apply only_raise|apply only_ret].
Qed.

(** X17: whenever [_run_command] raises, whatever the error, it has made no
    deletion call: the cleanup stands after the [try] statement and is
    reached only by the paths that return a result. *)
Lemma run_command_raise_skips_cleanup (s3_key_prefix_ : string)
    (params : Parameters) (timeout : option Z) (w : W) (e : exn) :
  let run := _run_command limits self s3_key_prefix_ params timeout w in
  outcome_of run = Raise e ->
  forallb not_deletion (trace_of run) = true.
Proof.
  intros run. subst run. unfold outcome_of, trace_of.
  destruct (_run_command _ _ _ _ _ w) as [[o w'] t] eqn:Hrun. simpl. intros ->.
  unfold _run_command in Hrun.
  apply bind_inv in Hrun
    as [(e' & Hsend & _)|(command_id & w1 & t1 & t2 & Hsend & Hrun & ->)];
    apply call_inv in Hsend as (reply & _ & -> & _); [reflexivity|].
  rewrite forallb_app. simpl.
  apply bind_inv in Hrun
    as [(e' & Htry & _)
       |([[return_code stdout_] stderr_] & w2 & t3 & t4 & _ & Hrun & ->)].
  - match type of Htry with
    | try_except ?m ?h w1 = _ =>
        assert (Honly : only not_deletion (try_except m h))
    end.
    { apply only_try_except; [apply wait_and_collect_deletes_nothing|].
      intros e0 k. destruct e0; try discriminate. intros [= <-].
      apply on_waiter_error_deletes_nothing. }
    specialize (Honly w1). rewrite Htry in Honly. exact Honly.
  - exfalso.
    apply bind_inv in Hrun as [(e' & Hd & _)|([] & w3 & t5 & t6 & _ & Hrun & _)].
    { match type of Hd with
      | _delete_s3_object _ ?k ?w0 = _ => pose proof (delete_object_returns self k w0) as Hr
      end. unfold outcome_of in Hr. rewrite Hd in Hr. discriminate. }
    apply bind_inv in Hrun as [(e' & Hd & _)|([] & w4 & t7 & t8 & _ & Hrun & _)].
    { match type of Hd with
      | _delete_s3_object _ ?k ?w0 = _ => pose proof (delete_object_returns self k w0) as Hr
      end. unfold outcome_of in Hr. rewrite Hd in Hr. discriminate. }
    apply bind_inv in Hrun as [(e' & Hd & _)|([] & w5 & t9 & t10 & _ & Hrun & _)].
    { match type of Hd with
      | _delete_s3_prefix _ ?k ?w0 = _ => pose proof (delete_prefix_returns self k w0) as Hr
      end. unfold outcome_of in Hr. rewrite Hd in Hr. discriminate. }
    discriminate.
Qed.
End RaiseSkipsCleanup.

(** C5 (the permission-denied outcome): the command fails with exit status
    126 on its error stream; [_run_command] raises [PermissionError], makes
    no deletion call, and the error stream object is still in the bucket.
    After a failure with exit code 1, by contrast, the result is returned
    and the object is gone. *)
Lemma permission_denied_leaves_artifacts :
  let run := _run_command inspect_ai_limits test_env "exec/t/" echo_params (Some 5) denied in
  let other := _run_command inspect_ai_limits test_env "exec/t/" echo_params (Some 5) crashed in
  outcome_of run
    = Raise (PermissionError
               "Permission denied executing command: failed to run commands: exit status 126")
  /\ forallb not_deletion (trace_of run) = true
  /\ objects (world_of run) !! stderr_of_cmd_1
     = Some (bytes_of "failed to run commands: exit status 126")
  /\ outcome_of other
     = Return {| success := false; returncode := 1; stdout := ""; stderr := "boom" |}
  /\ objects (world_of other) !! stderr_of_cmd_1 = None.
Proof. vm_compute. repeat split. Qed.

(** * Further properties *)

(** ** The tag codec, read back *)

Lemma split_nonempty (sep : ascii) (s : string) : Py.split sep s <> [].
Proof.
  induction s as [|c s IH]; simpl; [discriminate|].
  destruct (Ascii.eqb c sep); [discriminate|].
  destruct (Py.split sep s); discriminate.
Qed.

Lemma join_split (sep : ascii) (s : string) :
  Py.join (String sep EmptyString) (Py.split sep s) = s.
Proof.
  unfold Py.join. induction s as [|c s IH]; [reflexivity|]. simpl.
  destruct (Ascii.eqb_spec c sep) as [->|Hc].
  - pose proof (split_nonempty sep s) as Hne.
    destruct (Py.split sep s) as [|piece pieces]; [congruence|].
    change (String.concat (String sep "") ("" :: piece :: pieces))
      with (String sep (String.concat (String sep "") (piece :: pieces))).
    rewrite IH. reflexivity.
  - pose proof (split_nonempty sep s) as Hne.
    destruct (Py.split sep s) as [|piece pieces]; [congruence|].
    rewrite <- IH. destruct pieces; reflexivity.
Qed.

Lemma split_pieces_plain (sep : ascii) (s piece : string) :
  In piece (Py.split sep s) -> Py.has_char sep piece = false.
Proof.
  revert piece. induction s as [|c s IH]; simpl; intros piece Hin.
  - destruct Hin as [<-|[]]. reflexivity.
  - destruct (Ascii.eqb c sep) eqn:Hc.
    + destruct Hin as [<-|Hin]; [reflexivity|auto].
    + pose proof (split_nonempty sep s) as Hne.
      destruct (Py.split sep s) as [|p ps]; [congruence|].
      destruct Hin as [<-|Hin].
      * simpl. rewrite Hc. apply IH. left. reflexivity.
      * apply IH. right. exact Hin.
Qed.

(** A piece that splits in two at [=] is its key, [=], its value. *)
Lemma split_pair (tag key value : string) :
  Py.split "=" tag = [key; value] ->
  tag = format_tag (key, value)
  /\ Py.has_char "=" key = false /\ Py.has_char "=" value = false.
Proof.
  intros Hsplit. split.
  - rewrite <- (join_split "=" tag), Hsplit. reflexivity.
  - split; apply (split_pieces_plain "=" tag); rewrite Hsplit; simpl; auto.
Qed.

Lemma unpack_loop_reads (tags_list : list string) (acc out : list (string * string)) :
  unpack_loop tags_list acc = inr out ->
  exists pairs, out = acc ++ pairs /\ map format_tag pairs = tags_list
    /\ Forall (fun kv => Py.has_char "=" (fst kv) = false
                         /\ Py.has_char "=" (snd kv) = false) pairs.
Proof.
  revert acc. induction tags_list as [|tag rest IH]; intros acc; simpl.
  - intros [= <-]. exists []. rewrite app_nil_r. auto.
  - destruct (Py.split "=" tag) as [|key [|value [|x pieces]]] eqn:Hsplit; try discriminate.
    intros Hloop. destruct (IH _ Hloop) as (pairs & -> & Hmap & Hplain).
    destruct (split_pair _ _ _ Hsplit) as (Htag & Hkey & Hvalue).
    exists ((key, value) :: pairs). rewrite <- app_assoc. simpl.
    repeat split; [congruence|]. constructor; auto.
Qed.

(** X2: whatever text [unpack_tags] accepts is exactly the
    [key1=value1;key2=value2] rendering of the pairs it returns: nothing is
    trimmed, reordered or dropped, and no key or value holds a separator. *)
Theorem format_tags_unpack_tags (tags : string) (pairs : list (string * string)) :
  unpack_tags (Some tags) = inr pairs ->
  format_tags pairs = tags /\ Forall plain_pair pairs.
Proof.
  destruct tags as [|c s]; [intros [= <-]; auto|].
  unfold unpack_tags.
  destruct (unpack_loop _ _) as [e|out] eqn:Hloop; [destruct e; discriminate|].
  intros [= ->].
  destruct (unpack_loop_reads _ _ _ Hloop) as (pairs' & -> & Hmap & Hplain).
  simpl. split.
  - unfold format_tags. rewrite Hmap. apply (join_split ";").
  - apply List.Forall_forall. intros kv Hin. rewrite List.Forall_forall in Hplain.
    destruct (Hplain kv Hin) as [Hk Hv].
    assert (Hpiece : Py.has_char ";" (format_tag kv) = false).
    { apply (split_pieces_plain ";" (String c s)). rewrite <- Hmap.
      apply in_map, Hin. }
    unfold format_tag in Hpiece. rewrite !has_char_app in Hpiece.
    apply orb_false_iff in Hpiece as [Hk' Hrest].
    apply orb_false_iff in Hrest as [_ Hv'].
    repeat split; assumption.
Qed.

Lemma format_tags_unpack_tags_witness :
  format_tags [("team", "eval"); ("owner", " me ")] = "team=eval;owner= me "
  /\ Forall plain_pair [("team", "eval"); ("owner", " me ")].
Proof.
  apply (format_tags_unpack_tags "team=eval;owner= me " [("team", "eval"); ("owner", " me ")]).
  reflexivity.
Defined.

Lemma unpack_tags_format_tags_witness :
  unpack_tags (Some (format_tags [("team", "eval"); ("owner", "me")]))
  = inr [("team", "eval"); ("owner", "me")].
Proof.
  apply (unpack_tags_format_tags [("team", "eval"); ("owner", "me")]).
  repeat constructor.
Defined.

Lemma unpack_loop_accepts (tags_list : list string) (acc : list (string * string)) :
  (exists out, unpack_loop tags_list acc = inr out)
  <-> Forall (fun tag => length (Py.split "=" tag) = 2%nat) tags_list.
Proof.
  revert acc. induction tags_list as [|tag rest IH]; intros acc; simpl.
  - split; [constructor|eauto].
  - destruct (Py.split "=" tag) as [|key [|value [|x pieces]]] eqn:Hsplit;
      try (split; [intros [out [=]]|intros Hall; inversion Hall; subst;
                   rewrite Hsplit in *; discriminate]).
    rewrite IH. split.
    + intros Hrest. constructor; [rewrite Hsplit; reflexivity|exact Hrest].
    + intros Hall. inversion Hall. assumption.
Qed.

(** X3: [unpack_tags] accepts a non-empty text exactly when each of its
    pieces between semicolons holds one [=] and no more: a piece without
    [=], an empty piece (a trailing semicolon) or a value with a second [=]
    makes it raise. *)
Theorem unpack_tags_accepts (tags : string) :
  tags <> EmptyString ->
  (exists pairs, unpack_tags (Some tags) = inr pairs)
  <-> Forall (fun tag => length (Py.split "=" tag) = 2%nat) (Py.split ";" tags).
Proof.
  intros Hne. rewrite <- (unpack_loop_accepts _ []).
  destruct tags as [|c s]; [congruence|]. unfold unpack_tags.
  destruct (unpack_loop _ _) as [e|out] eqn:Hloop.
  - destruct (unpack_loop_error _ _ _ Hloop) as [msg ->].
    split; intros [x [=]].
  - split; intros _; eauto.
Qed.

Lemma unpack_tags_accepts_witness :
  ((exists pairs, unpack_tags (Some "a=b;c=d") = inr pairs)
   <-> Forall (fun tag => length (Py.split "=" tag) = 2%nat) (Py.split ";" "a=b;c=d"))
  /\ ~ (exists pairs, unpack_tags (Some "a=b;") = inr pairs)
  /\ ~ (exists pairs, unpack_tags (Some "url=http://x?y=1") = inr pairs).
Proof.
  split; [apply (unpack_tags_accepts "a=b;c=d"); discriminate|].
  split.
  - intros Hok. apply (unpack_tags_accepts "a=b;") in Hok; [|discriminate].
    inversion Hok as [|? ? _ Hrest]. inversion Hrest. discriminate.
  - intros Hok. apply (unpack_tags_accepts "url=http://x?y=1") in Hok; [|discriminate].
    inversion Hok. discriminate.
Defined.

(** ** Configuration assembly *)

Lemma init_gives (params : ConfigParams) (cfg : Ec2SandboxEnvironmentConfig) :
  Ec2SandboxEnvironmentConfig_init params = inr cfg -> params = params_of_config cfg.
Proof.
  destruct params as [r v sg sn a it ip b pf tg].
  unfold Ec2SandboxEnvironmentConfig_init, and_then, required. simpl.
  destruct r, v, sg, sn, a, it, ip, b, pf, tg; try discriminate.
  intros [= <-]. reflexivity.
Qed.

Section Assembly.
Context {W : Type} `{World W}.

Lemma ret_inv {A} (a : A) (w : W) o w' t :
  ret a w = (o, w', t) -> o = Return a /\ w' = w /\ t = [].
Proof. intros [= <- <- <-]. auto. Qed.

(** X4: where every field of the configuration [from_settings] returns comes
    from: a keyword argument wins over the setting; the instance type
    falls back to [t3a.large] and the key prefix to the empty prefix; the
    tags are the keyword argument or else the unpacked setting; a region
    given nowhere is the [AWS_REGION] of the environment, and an image
    given nowhere is the first value the parameter store holds for the
    Ubuntu 24.04 image in that region. *)
Theorem from_settings_resolves (kwargs : ConfigOverrides) (w : W)
    (cfg : Ec2SandboxEnvironmentConfig) :
  let run := from_settings kwargs w in
  outcome_of run = Return cfg ->
  exists settings_ w1 tags,
    respond load_settings w = (inr settings_, w1)
    /\ unpack_tags (st_extra_tags_str settings_) = inr tags
    /\ extra_tags cfg = default tags (kw_extra_tags kwargs)
    /\ instance_type cfg
       = default "t3a.large"
           (default (st_instance_type settings_) (kw_instance_type kwargs))
    /\ s3_key_prefix cfg
       = default "" (default (st_s3_key_prefix settings_) (kw_s3_key_prefix kwargs))
    /\ default (st_vpc_id settings_) (kw_vpc_id kwargs) = Some (vpc_id cfg)
    /\ default (st_security_group_id settings_) (kw_security_group_id kwargs)
       = Some (security_group_id cfg)
    /\ default (st_subnet_id settings_) (kw_subnet_id kwargs) = Some (subnet_id cfg)
    /\ default (st_instance_profile settings_) (kw_instance_profile kwargs)
       = Some (instance_profile cfg)
    /\ default (st_s3_bucket settings_) (kw_s3_bucket kwargs) = Some (s3_bucket cfg)
    /\ match default (st_region settings_) (kw_region kwargs) with
       | Some r => region cfg = r
       | None => In (Call (getenv "AWS_REGION") (inr (Some (region cfg)))) (trace_of run)
       end
    /\ match default (st_ami_id settings_) (kw_ami_id kwargs) with
       | Some a => ami_id cfg = a
       | None =>
           exists others,
             In (Call (get_parameters (region cfg) [ubuntu_ami_parameter])
                   (inr (ami_id cfg :: others))) (trace_of run)
       end.
Proof.
  intros run. subst run. unfold outcome_of, trace_of, from_settings.
  destruct (bind _ _ w) as [[o w'] t] eqn:E. simpl. intros ->.
  apply bind_inv in E as [(e & _ & [=])|(settings_ & w1 & t1 & t2 & Hload & E & ->)].
  apply call_inv in Hload as (reply & Hload & -> & Hreply).
  destruct reply as [e|s]; [discriminate|]. injection Hreply as <-.
  apply bind_inv in E as [(e & _ & [=])|(tags & w2 & t3 & t4 & Htags & E & ->)].
  apply lift_inv in Htags as (-> & -> & Htags).
  destruct (unpack_tags (st_extra_tags_str settings_)) as [e|tags'] eqn:Hunpack;
    [discriminate|]. injection Htags as <-.
  apply bind_inv in E as [(e & _ & [=])|(region_ & w3 & t5 & t6 & Hregion & E & ->)].
  apply bind_inv in E as [(e & _ & [=])|(ami_id_ & w4 & t7 & t8 & Hami & E & ->)].
  simpl in E.
  destruct (Py.startswith _ "/") eqn:Hslash; [discriminate|].
  apply lift_inv in E as (_ & -> & E).
  destruct (Ec2SandboxEnvironmentConfig_init _) as [e|cfg'] eqn:Hinit; [discriminate|].
  injection E as ->.
  apply init_gives in Hinit. unfold params_of_config in Hinit.
  injection Hinit as Hr Hv Hsg Hsn Ha Hit Hip Hb Hpf Htg.
  exists settings_, w1, tags. simpl in *.
  repeat (split; [first [assumption | congruence | reflexivity]|]).
  split.
  - destruct (default (st_region settings_) (kw_region kwargs)) as [r|] eqn:Hdr.
    + apply ret_inv in Hregion as ([= <-] & _ & _). congruence.
    + apply bind_inv in Hregion
        as [(e & _ & [=])|(aws & w5 & t9 & t10 & Hgetenv & Hregion & ->)].
      apply call_inv in Hgetenv as (reply & _ & -> & Hreply).
      destruct reply as [e|aws']; [discriminate|]. injection Hreply as <-.
      destruct aws as [r|]; [|discriminate].
      apply ret_inv in Hregion as ([= <-] & _ & _).
      subst region_. rewrite !in_app_iff. simpl. auto 10.
  - destruct (default (st_ami_id settings_) (kw_ami_id kwargs)) as [a|] eqn:Hda.
    + apply ret_inv in Hami as ([= <-] & _ & _). congruence.
    + unfold _find_ami_ubu24 in Hami.
      apply bind_inv in Hami
        as [(e & _ & [=])|(values & w5 & t9 & t10 & Hget & Hami & ->)].
      apply call_inv in Hget as (reply & _ & -> & Hreply).
      destruct reply as [e|values']; [discriminate|]. injection Hreply as <-.
      destruct values as [|first others]; [discriminate|].
      apply ret_inv in Hami as ([= <-] & _ & _).
      exists others. subst region_ ami_id_. rewrite !in_app_iff. simpl. auto 10.
Qed.

(** X5: a malformed tag text in the settings makes [from_settings] raise
    the format error as soon as the settings are loaded, whatever the
    keyword arguments are, also when they supply the tags themselves; no
    other request is made. *)
Theorem from_settings_unpacks_settings_first (kwargs : ConfigOverrides) (w : W)
    settings_ w1 e :
  respond load_settings w = (inr settings_, w1) ->
  unpack_tags (st_extra_tags_str settings_) = inl e ->
  from_settings kwargs w = (Raise e, w1, [Call load_settings (inr settings_)]).
Proof.
  intros Hload Htags. unfold from_settings.
  erewrite bind_Return by (apply call_Return, Hload).
  rewrite Htags. reflexivity.
Qed.

(** X6: with no region in the keyword arguments, the settings or
    [AWS_REGION], [from_settings] raises [ValueError] right after reading
    the environment: the image lookup is not attempted. *)
Theorem from_settings_needs_region (kwargs : ConfigOverrides) (w : W)
    settings_ w1 tags w2 :
  respond load_settings w = (inr settings_, w1) ->
  unpack_tags (st_extra_tags_str settings_) = inr tags ->
  default (st_region settings_) (kw_region kwargs) = None ->
  respond (getenv "AWS_REGION") w1 = (inr None, w2) ->
  from_settings kwargs w
  = (Raise (ValueError
              ("Region must be specified either in settings,"
               +:+ " or as an environment variable INSPECT_EC2_SANDBOX_REGION or AWS_REGION.")),
     w2,
     [Call load_settings (inr settings_); Call (getenv "AWS_REGION") (inr None)]).
Proof.
  intros Hload Htags Hregion Hgetenv. unfold from_settings.
  erewrite bind_Return by (apply call_Return, Hload).
  rewrite Htags. unfold lift. rewrite bind_ret. simpl p_region. rewrite Hregion.
  erewrite bind_Raise; [reflexivity|].
  erewrite bind_Return by (apply call_Return, Hgetenv). reflexivity.
Qed.
End Assembly.

Lemma from_settings_resolves_witness :
  exists tags,
    unpack_tags None = inr tags
    /\ extra_tags (configured_with_defaults) = tags
    /\ instance_type configured_with_defaults = "t3a.large"
    /\ s3_key_prefix configured_with_defaults = ""
    /\ region configured_with_defaults = "eu-central-1"
    /\ ami_id configured_with_defaults = "ami-0f00".
Proof.
  assert (Hrun : outcome_of (from_settings no_overrides
                   (with_settings bare_settings [("AWS_REGION", "eu-central-1")]))
                 = Return configured_with_defaults) by reflexivity.
  destruct (from_settings_resolves _ _ _ Hrun)
    as (st & w1 & tags & Hload & Htags & Htg & Hit & Hpf & _).
  unfold respond, scripted_world, scripted_respond in Hload. simpl in Hload.
  injection Hload as <- <-. exists tags. repeat split; assumption || reflexivity.
Defined.

Lemma from_settings_unpacks_settings_first_witness :
  from_settings tags_override (with_settings bad_tag_settings [])
  = (Raise tags_format_error, with_settings bad_tag_settings [],
     [Call load_settings (inr bad_tag_settings)]).
Proof.
  apply (from_settings_unpacks_settings_first tags_override
           (with_settings bad_tag_settings []) bad_tag_settings
           (with_settings bad_tag_settings []) tags_format_error);
    reflexivity.
Defined.

Lemma from_settings_needs_region_witness :
  outcome_of (from_settings no_overrides (with_settings bare_settings []))
  = Raise (ValueError
             ("Region must be specified either in settings,"
              +:+ " or as an environment variable INSPECT_EC2_SANDBOX_REGION or AWS_REGION.")).
Proof.
  rewrite (from_settings_needs_region no_overrides (with_settings bare_settings [])
             bare_settings (with_settings bare_settings []) []
             (with_settings bare_settings []));
    reflexivity.
Defined.

(** ** Object-store keys *)

Lemma append_assoc (a b c : string) : (a +:+ b) +:+ c = a +:+ (b +:+ c).
Proof.
  induction a as [|x a IH]; [reflexivity|].
  change (String x ((a +:+ b) +:+ c) = String x (a +:+ (b +:+ c))).
  f_equal. exact IH.
Qed.

Lemma append_cancel_l (a b c : string) : a +:+ b = a +:+ c -> b = c.
Proof.
  induction a as [|x a IH]; [auto|].
  change (String x (a +:+ b) = String x (a +:+ c) -> b = c).
  intros [= Heq]. auto.
Qed.

Lemma length_append (a b : string) :
  String.length (a +:+ b) = (String.length a + String.length b)%nat.
Proof.
  induction a as [|x a IH]; [reflexivity|].
  change (S (String.length (a +:+ b)) = S (String.length a + String.length b)).
  f_equal. exact IH.
Qed.

(** Two texts that end in tails of one length are equal piece by piece. *)
Lemma append_inj (a b c d : string) :
  String.length b = String.length d -> a +:+ b = c +:+ d -> a = c /\ b = d.
Proof.
  revert c. induction a as [|x a IH]; intros [|y c] Hlen Heq.
  - auto.
  - exfalso. apply (f_equal String.length) in Heq.
    change (String y c +:+ d) with (String y (c +:+ d)) in Heq.
    change (EmptyString +:+ b) with b in Heq. simpl in Heq.
    rewrite length_append in Heq. lia.
  - exfalso. apply (f_equal String.length) in Heq.
    change (String x a +:+ b) with (String x (a +:+ b)) in Heq.
    change (EmptyString +:+ d) with d in Heq. simpl in Heq.
    rewrite length_append in Heq. lia.
  - change (String x (a +:+ b) = String y (c +:+ d)) in Heq.
    injection Heq as <- Heq. destruct (IH c Hlen Heq) as [-> ->]. auto.
Qed.

Lemma prefix_append (a b : string) : String.prefix a (a +:+ b) = true.
Proof.
  induction a as [|x a IH]; [destruct b; reflexivity|].
  change (String.prefix (String x a) (String x (a +:+ b)) = true). simpl.
  destruct (ascii_dec x x); [exact IH|congruence].
Qed.

Section KeyProperties.
Context {W : Type} `{World W}.
Variable self : Ec2SandboxEnvironment.

Lemma s3_key_prefix_run (operation : string) (w : W) rand w1 timestamp w2 :
  respond (random_choices ascii_letters_and_digits 8) w = (inr rand, w1) ->
  respond datetime_now_isoformat w1 = (inr timestamp, w2) ->
  _s3_key_prefix self operation w
  = (Return (s3_key_prefix (config self) +:+ operation +:+ "/"
             +:+ timestamp +:+ "-" +:+ rand +:+ "/"),
     w2,
     [Call (random_choices ascii_letters_and_digits 8) (inr rand);
      Call datetime_now_isoformat (inr timestamp)]).
Proof.
  intros Hrand Hnow. unfold _s3_key_prefix.
  erewrite bind_Return by (apply call_Return, Hrand).
  erewrite bind_Return by (apply call_Return, Hnow). reflexivity.
Qed.

(** X7: two key prefixes generated for one operation, from random suffixes
    of one length, differ as soon as the timestamp or the random suffix
    differs: invocations collide on object-store keys only if the clock and
    the generator both repeat. *)
Theorem s3_key_prefix_collides_only_on_repeat (operation : string) (w w' : W)
    rand w1 timestamp w2 rand' w1' timestamp' w2' :
  respond (random_choices ascii_letters_and_digits 8) w = (inr rand, w1) ->
  respond datetime_now_isoformat w1 = (inr timestamp, w2) ->
  respond (random_choices ascii_letters_and_digits 8) w' = (inr rand', w1') ->
  respond datetime_now_isoformat w1' = (inr timestamp', w2') ->
  String.length rand = String.length rand' ->
  (timestamp, rand) <> (timestamp', rand') ->
  outcome_of (_s3_key_prefix self operation w)
    <> outcome_of (_s3_key_prefix self operation w').
Proof.
  intros Hrand Hnow Hrand' Hnow' Hlen Hdiffer.
  rewrite (s3_key_prefix_run _ _ _ _ _ _ Hrand Hnow),
          (s3_key_prefix_run _ _ _ _ _ _ Hrand' Hnow').
  unfold outcome_of. simpl. intros [= Heq]. apply Hdiffer.
  apply append_cancel_l, append_cancel_l in Heq.
  change ("/" +:+ timestamp +:+ "-" +:+ rand +:+ "/")
    with (String "/" (timestamp +:+ "-" +:+ rand +:+ "/")) in Heq.
  change ("/" +:+ timestamp' +:+ "-" +:+ rand' +:+ "/")
    with (String "/" (timestamp' +:+ "-" +:+ rand' +:+ "/")) in Heq.
  injection Heq as Heq.
  apply append_inj in Heq as [Hts Htail].
  - change ("-" +:+ rand +:+ "/") with (String "-" (rand +:+ "/")) in Htail.
    change ("-" +:+ rand' +:+ "/") with (String "-" (rand' +:+ "/")) in Htail.
    injection Htail as Htail.
    apply append_inj in Htail as [Hr _]; [congruence|reflexivity].
  - simpl. rewrite !length_append. simpl. lia.
Qed.
End KeyProperties.

(** X8: the two output streams of an invocation have different keys, and
    both keys lie under the prefix [{s3_key_prefix}{command_id}/] that
    [_run_command] lists for deletion. *)
Theorem output_keys_apart_under_prefix (s3_key_prefix_ command_id instance_id_ : string) :
  output_key s3_key_prefix_ command_id instance_id_ "stdout"
    <> output_key s3_key_prefix_ command_id instance_id_ "stderr"
  /\ forall stream,
       String.prefix (s3_key_prefix_ +:+ command_id +:+ "/")
         (output_key s3_key_prefix_ command_id instance_id_ stream) = true.
Proof.
  unfold output_key. split.
  - intros Heq. do 4 apply append_cancel_l in Heq. discriminate.
  - intros stream.
    replace (s3_key_prefix_ +:+ command_id +:+ "/" +:+ instance_id_
             +:+ "/awsrunShellScript/0.awsrunShellScript/" +:+ stream)
      with ((s3_key_prefix_ +:+ command_id +:+ "/")
            +:+ (instance_id_ +:+ "/awsrunShellScript/0.awsrunShellScript/" +:+ stream)).
    + apply prefix_append.
    + rewrite !append_assoc. reflexivity.
Qed.

Lemma s3_key_prefix_collides_only_on_repeat_witness :
  outcome_of (_s3_key_prefix test_env "exec" quiet)
    <> outcome_of (_s3_key_prefix test_env "exec" reseeded).
Proof.
  apply (s3_key_prefix_collides_only_on_repeat test_env "exec" quiet reseeded
           "Ab3dEf9h" quiet "2025-01-01T00:00:00" quiet
           "Zz9yXx8w" reseeded "2025-01-01T00:00:00" reseeded);
    try reflexivity.
  discriminate.
Defined.

(** ** The object-store helpers, whatever the store answers *)

Section HelperProperties.
Context {W : Type} `{World W}.
Variable self : Ec2SandboxEnvironment.

(** X9: the two deletion helpers never raise, whatever the object store
    answers; a failed [delete_object] call is logged as a warning that
    carries the error. *)
Theorem cleanup_failures_are_swallowed (key : string) (w : W) :
  outcome_of (_delete_s3_object self key w) = Return tt
  /\ outcome_of (_delete_s3_prefix self key w) = Return tt
  /\ forall e w1,
       respond (delete_object (s3_bucket (config self)) key) w = (inl e, w1) ->
       trace_of (_delete_s3_object self key w)
       = [Call (delete_object (s3_bucket (config self)) key) (inl e);
          Logged WARNING ("Failed to delete S3 object " +:+ key +:+ ": ") (Some e)].
Proof.
  split; [apply delete_object_returns|]. split; [apply delete_prefix_returns|].
  intros e w1 Hdelete.
  unfold _delete_s3_object, try_except, bind, call, log, emit, trace_of.
  rewrite Hdelete. reflexivity.
Qed.

(** X10: an error of the size probe that is not a not-found answer is not
    turned into the empty string: [_read_s3_file_or_blank] raises it, and
    fetches nothing. *)
Theorem read_surfaces_other_errors (key : string) (limit_bytes : Z) (w : W) e w1 :
  respond (head_object (s3_bucket (config self)) key) w = (inl e, w1) ->
  e <> ClientError (Some "404") ->
  is_NoSuchKey e = false ->
  is_KeyError e = false ->
  _read_s3_file_or_blank self key limit_bytes w
  = (Raise e, w1, [Call (head_object (s3_bucket (config self)) key) (inl e)]).
Proof.
  intros Hhead H404 Hnsk Hkey.
  unfold _read_s3_file_or_blank, _get_s3_file_size, try_except, bind, call, log,
    emit, lift, raise, ret.
  rewrite Hhead.
  destruct e as [| | | | | | | | |[code|]| | |]; try discriminate; try reflexivity.
  simpl. destruct (String.eqb_spec code "404") as [->|_]; [congruence|].
  simpl in Hnsk |- *. rewrite Hnsk. reflexivity.
Qed.

(** X11: [_read_s3_file_or_blank] probes the size once, before anything
    else, and fetches at most once: nothing when the probe raises, the
    range [0..limit-1] when the probed size reaches the limit, and the whole
    object only when the probed size is below the limit. *)
Theorem read_probes_before_fetching (key : string) (limit_bytes : Z) (w : W) :
  let asked := requests (trace_of (_read_s3_file_or_blank self key limit_bytes w)) in
  match respond (head_object (s3_bucket (config self)) key) w with
  | (inl e, _) => asked = [Call (head_object (s3_bucket (config self)) key) (inl e)]
  | (inr probe, w1) =>
      let range := if limit_bytes <=? default 0 (ContentLength probe)
                   then Some (0, limit_bytes - 1) else None in
      asked = [Call (head_object (s3_bucket (config self)) key) (inr probe);
               Call (get_object (s3_bucket (config self)) key range)
                 (fst (respond (get_object (s3_bucket (config self)) key range) w1))]
  end.
Proof.
  simpl.
  destruct (respond (head_object (s3_bucket (config self)) key) w)
    as [[e|probe] w1] eqn:Hhead;
    unfold _read_s3_file_or_blank, _get_s3_file_size, try_except, bind, call, log,
      emit, lift, raise, ret, trace_of; rewrite Hhead.
  - destruct e as [| | | | | | | | |[code|]| | |]; try reflexivity.
    simpl. destruct (String.eqb code "404"); simpl; [reflexivity|].
    destruct (String.eqb code "NoSuchKey"); reflexivity.
  - simpl. destruct (limit_bytes <=? default 0 (ContentLength probe)).
    + destruct (respond (get_object _ key (Some (0, limit_bytes - 1))) w1)
        as [[e|body] w2]; simpl.
      * destruct (is_NoSuchKey e || is_KeyError e); reflexivity.
      * destruct (decode_utf8 body) as [e|s]; simpl; [|reflexivity].
        destruct (is_NoSuchKey e || is_KeyError e); reflexivity.
    + destruct (respond (get_object _ key None) w1) as [[e|body] w2]; simpl.
      * destruct (is_NoSuchKey e || is_KeyError e); reflexivity.
      * destruct (decode_utf8 body) as [e|s]; simpl; [|reflexivity].
        destruct (is_NoSuchKey e || is_KeyError e); reflexivity.
Qed.
End HelperProperties.

Lemma read_surfaces_other_errors_witness :
  _read_s3_file_or_blank test_env "any/key" 10 tt
  = (Raise (ClientError (Some "AccessDenied")), tt,
     [Call (head_object "fake-bucket" "any/key") (inl (ClientError (Some "AccessDenied")))]).
Proof.
  apply (read_surfaces_other_errors test_env "any/key" 10 tt
           (ClientError (Some "AccessDenied")) tt);
    [reflexivity|discriminate|reflexivity|reflexivity].
Defined.

(** ** What a returned result tells about the run *)

Lemma storage_is_not_cancel (ev : event) : is_storage ev = true -> not_cancel ev = true.
Proof.
  destruct ev as [T r reply| | |]; try reflexivity.
  destruct r; simpl; congruence.
Qed.

Section ResultProperties.
Context {W : Type} `{World W}.
Variable limits : SandboxEnvironmentLimits.
Variable self : Ec2SandboxEnvironment.

Lemma only_run (P : event -> bool) {A} (m : M W A) (w : W) o w' t :
  only P m -> m w = (o, w', t) -> forallb P t = true.
Proof. intros Hm Hrun. specialize (Hm w). rewrite Hrun in Hm. exact Hm. Qed.

Lemma storage_run_cancels_nothing {A} (m : M W A) (w : W) o w' t :
  only is_storage m -> m w = (o, w', t) -> forallb not_cancel t = true.
Proof.
  intros Hm. apply only_run.
  apply (only_weaken is_storage not_cancel m storage_is_not_cancel Hm).
Qed.

Lemma wait_and_collect_cancels_nothing command_id stdout_key stderr_key timeout :
  only not_cancel (wait_and_collect limits self command_id stdout_key stderr_key timeout).
Proof.
  unfold wait_and_collect.
  apply only_bind; [apply only_call; reflexivity|]. intros _.
  apply only_bind; [apply (only_weaken is_storage _ _ storage_is_not_cancel), read_storage|].
  intros stdout_.
  apply only_bind; [apply (only_weaken is_storage _ _ storage_is_not_cancel), read_storage|].
  intros stderr_.
  apply only_bind; [apply only_call; reflexivity|]. intros response. apply only_ret.
Qed.

(** The handler of the failed wait returns only when it did not cancel,
    and then the error stream it read does not hold the exit-126 marker. *)
Lemma on_waiter_error_returned command_id stdout_key stderr_key we lr (w : W)
    return_code stdout_ stderr_ w' t :
  on_waiter_error limits self command_id stdout_key stderr_key we lr w
    = (Return (return_code, stdout_, stderr_), w', t) ->
  forallb not_cancel t = true /\ Py.contains stderr_ exit_126_marker = false.
Proof.
  unfold on_waiter_error. intros Hrun.
  apply bind_inv in Hrun as [(e & _ & [=])|([] & w1 & t1 & t2 & Hlog & Hrun & ->)].
  injection Hlog as <- <-.
  apply bind_inv in Hrun as [(e & _ & [=])|([] & w2 & t3 & t4 & Hstatus & Hrun & ->)].
  assert (Ht3 : forallb not_cancel t3 = true).
  { destruct (lr_Status lr) as [status|]; [|injection Hstatus as <- <-; reflexivity].
    destruct (String.eqb status "InProgress").
    - exfalso. revert Hstatus. unfold bind, log, emit, call, raise.
      destruct (respond _ w) as [[e|[]] w3]; discriminate.
    - injection Hstatus as <- <-. reflexivity. }
  apply bind_inv in Hrun as [(e & _ & [=])|(so & w3 & t5 & t6 & Hout & Hrun & ->)].
  apply bind_inv in Hrun as [(e & _ & [=])|(se & w4 & t7 & t8 & Herr & Hrun & ->)].
  pose proof (storage_run_cancels_nothing _ _ _ _ _ (read_storage self _ _) Hout) as Ht5.
  pose proof (storage_run_cancels_nothing _ _ _ _ _ (read_storage self _ _) Herr) as Ht7.
  unfold exit_126_marker.
  destruct (Py.contains se _) eqn:Hmarker; [discriminate|].
  injection Hrun as _ _ <- _ <-.
  split; [|exact Hmarker].
  rewrite !forallb_app, Ht3, Ht5, Ht7. reflexivity.
Qed.

(** X13: a result returned by [_run_command] means that no cancellation was
    asked of the relay: a run that cancels its command never returns a
    result. *)
Theorem run_command_returns_without_cancelling (s3_key_prefix_ : string)
    (params : Parameters) (timeout : option Z) (w : W) (r : ExecResult) :
  let run := _run_command limits self s3_key_prefix_ params timeout w in
  outcome_of run = Return r ->
  forallb not_cancel (trace_of run) = true.
Proof.
  intros run. subst run. unfold outcome_of, trace_of.
  destruct (_run_command _ _ _ _ _ w) as [[o w'] t] eqn:Hrun. simpl. intros ->.
  unfold _run_command in Hrun.
  apply bind_inv in Hrun
    as [(e & _ & [=])|(command_id & w1 & t1 & t2 & Hsend & Hrun & ->)].
  apply call_inv in Hsend as (reply & _ & -> & _).
  apply bind_inv in Hrun
    as [(e & _ & [=])|([[return_code stdout_] stderr_] & w2 & t3 & t4 & Htry & Hrun & ->)].
  apply bind_inv in Hrun as [(e & _ & [=])|([] & w3 & t5 & t6 & Hd1 & Hrun & ->)].
  apply bind_inv in Hrun as [(e & _ & [=])|([] & w4 & t7 & t8 & Hd2 & Hrun & ->)].
  apply bind_inv in Hrun as [(e & _ & [=])|([] & w5 & t9 & t10 & Hd3 & Hrun & ->)].
  injection Hrun as _ _ <-.
  pose proof (storage_run_cancels_nothing _ _ _ _ _ (delete_object_storage self _) Hd1)
    as Ht5.
  pose proof (storage_run_cancels_nothing _ _ _ _ _ (delete_object_storage self _) Hd2)
    as Ht7.
  pose proof (storage_run_cancels_nothing _ _ _ _ _ (delete_prefix_storage self _) Hd3)
    as Ht9.
  assert (Ht3 : forallb not_cancel t3 = true).
  { apply try_except_inv in Htry
      as [(a & Hbody & _)|[(e & _ & _ & [=])|(e & w6 & t11 & k & t12 & Hbody & Hk & Hh & ->)]].
    - exact (only_run _ _ _ _ _ _ (wait_and_collect_cancels_nothing _ _ _ _) Hbody).
    - pose proof (only_run _ _ _ _ _ _ (wait_and_collect_cancels_nothing _ _ _ _) Hbody)
        as Hb.
      destruct e as [| | | | | | | | | |lr| |]; try discriminate. injection Hk as <-.
      apply on_waiter_error_returned in Hh as [Hh _].
      rewrite forallb_app, Hb, Hh. reflexivity. }
  rewrite !forallb_app, Ht3, Ht5, Ht7, Ht9. reflexivity.
Qed.

(** X14: in a result [_run_command] returns after a wait that ended in
    [WaiterError], the error stream does not hold the text
    [failed to run commands: exit status 126]: such a run raises instead. *)
Theorem run_command_failed_result_lacks_marker (s3_key_prefix_ : string)
    (params : Parameters) (timeout : option Z) (w : W) (r : ExecResult) lr :
  let run := _run_command limits self s3_key_prefix_ params timeout w in
  outcome_of run = Return r ->
  waits (trace_of run) = [inl (WaiterError lr)] ->
  Py.contains (stderr r) exit_126_marker = false.
Proof.
  intros run. subst run. unfold outcome_of, trace_of.
  destruct (_run_command _ _ _ _ _ w) as [[o w'] t] eqn:Hrun. simpl. intros ->.
  unfold _run_command in Hrun.
  apply bind_inv in Hrun
    as [(e & _ & [=])|(command_id & w1 & t1 & t2 & Hsend & Hrun & ->)].
  apply call_inv in Hsend as (reply & _ & -> & _).
  apply bind_inv in Hrun
    as [(e & _ & [=])|([[return_code stdout_] stderr_] & w2 & t3 & t4 & Htry & Hrun & ->)].
  apply bind_inv in Hrun as [(e & _ & [=])|([] & w3 & t5 & t6 & Hd1 & Hrun & ->)].
  apply bind_inv in Hrun as [(e & _ & [=])|([] & w4 & t7 & t8 & Hd2 & Hrun & ->)].
  apply bind_inv in Hrun as [(e & _ & [=])|([] & w5 & t9 & t10 & Hd3 & Hrun & ->)].
  injection Hrun as <- _ <-. simpl.
  apply try_except_inv in Htry
    as [(a & Hbody & _)|[(e & _ & _ & [=])|(e & w6 & t11 & k & t12 & Hbody & Hk & Hh & ->)]].
  - intros Hwaits. exfalso.
    apply wait_and_collect_inv in Hbody
      as [(e & [=] & _)|(Hw & _)].
    unfold waits in *. simpl in Hwaits. rewrite !omap_app, Hw in Hwaits.
    discriminate.
  - intros _. destruct e as [| | | | | | | | | |lr'| |]; try discriminate.
    injection Hk as <-.
    apply on_waiter_error_returned in Hh as [_ Hh]. exact Hh.
Qed.
End ResultProperties.

Section TimeoutProperties.
Context {W : Type} `{World W}.
Variable limits : SandboxEnvironmentLimits.
Variable self : Ec2SandboxEnvironment.

(** X18: [exec] uses its timeout only through [timeout or 3600]: two timeouts
    with the same value of that expression give the same run, so a timeout
    of 0 runs like no timeout at all, with one hour of waiting. *)
Theorem exec_timeout_zero_is_an_hour cmd input cwd env user timeout_retry
    (timeout timeout' : option Z) (w : W) :
  Py.int_or timeout 3600 = Py.int_or timeout' 3600 ->
  exec limits self cmd input cwd env user timeout timeout_retry w
  = exec limits self cmd input cwd env user timeout' timeout_retry w.
Proof.
  intros Hsame.
  unfold exec, _run_command, wait_and_collect. rewrite Hsame. reflexivity.
Qed.
End TimeoutProperties.

Lemma run_command_returns_without_cancelling_witness :
  forallb not_cancel
    (trace_of (_run_command inspect_ai_limits test_env "exec/t/" echo_params (Some 5) crashed))
  = true.
Proof.
  apply (run_command_returns_without_cancelling inspect_ai_limits test_env "exec/t/"
           echo_params (Some 5) crashed
           {| success := false; returncode := 1; stdout := ""; stderr := "boom" |}).
  reflexivity.
Defined.

Lemma run_command_failed_result_lacks_marker_witness :
  Py.contains "boom" exit_126_marker = false.
Proof.
  apply (run_command_failed_result_lacks_marker inspect_ai_limits test_env "exec/t/"
           echo_params (Some 5) crashed
           {| success := false; returncode := 1; stdout := ""; stderr := "boom" |}
           {| lr_Status := Some "Failed"; lr_ResponseCode := Some 1 |});
    reflexivity.
Defined.

Lemma exec_timeout_zero_is_an_hour_witness :
  exec small_limits test_env ["echo"; "hello"] None None [] None (Some 0) true greeted
  = exec small_limits test_env ["echo"; "hello"] None None [] None None true greeted.
Proof.
  apply (exec_timeout_zero_is_an_hour small_limits test_env ["echo"; "hello"] None None
           [] None true (Some 0) None greeted).
  reflexivity.
Defined.

Lemma run_command_cancel_failure_witness :
  outcome_of (_run_command small_limits test_env "exec/t/" echo_params (Some 5)
                cancel_refused)
  = Raise (ClientError (Some "InvalidCommandId")).
Proof.
  apply (run_command_cancel_failure small_limits test_env "exec/t/" echo_params (Some 5)
           cancel_refused "cmd-1" cancel_refused still_running cancel_refused
           (ClientError (Some "InvalidCommandId")) cancel_refused);
    reflexivity.
Defined.

Lemma run_command_cleans_up_before_returning_witness :
  exists command_id reply1 reply2 reply3,
    let run := _run_command inspect_ai_limits test_env "exec/t/" echo_params (Some 5) crashed in
    In (Call (send_command ["i-0abc"] "AWS-RunShellScript" echo_params "fake-bucket"
                "exec/t/") (inr command_id)) (trace_of run)
    /\ In (Call (delete_object "fake-bucket"
                   (output_key "exec/t/" command_id "i-0abc" "stdout")) reply1)
          (trace_of run)
    /\ In (Call (delete_object "fake-bucket"
                   (output_key "exec/t/" command_id "i-0abc" "stderr")) reply2)
          (trace_of run)
    /\ In (Call (list_objects_v2 "fake-bucket" ("exec/t/" +:+ command_id +:+ "/")) reply3)
          (trace_of run).
Proof.
  apply (run_command_cleans_up_before_returning inspect_ai_limits test_env "exec/t/"
           echo_params (Some 5) crashed
           {| success := false; returncode := 1; stdout := ""; stderr := "boom" |}).
  reflexivity.
Defined.

Lemma run_command_raise_skips_cleanup_witness :
  forallb not_deletion
    (trace_of (_run_command inspect_ai_limits test_env "exec/t/" echo_params (Some 5)
                 denied))
  = true.
Proof.
  apply (run_command_raise_skips_cleanup inspect_ai_limits test_env "exec/t/"
           echo_params (Some 5) denied
           (PermissionError
              "Permission denied executing command: failed to run commands: exit status 126")).
  reflexivity.
Defined.

(** ** The download of [read_file], and the one page of [_delete_s3_prefix] *)

Section DownloadProperties.
Context {W : Type} `{World W}.
Variable limits : SandboxEnvironmentLimits.
Variable self : Ec2SandboxEnvironment.

(** X19: the download of [read_file] on an object below the ceiling: it
    probes, fetches the whole object, asks for the deletion of the object,
    and only then decodes; with [text] the result is the decoded text, or
    the decoding error (raised after the deletion was asked); without
    [text] it is the bytes as stored. *)
Theorem read_file_download_returns (file file_key : string) (text : bool)
    (w : W) (content : bytes) :
  holds_object w (s3_bucket (config self)) file_key content ->
  Z.of_nat (length content) < MAX_READ_FILE_SIZE limits ->
  let run := read_file_download limits self file file_key text w in
  outcome_of run
  = (if text then
       match decode_utf8 content with
       | inr s => Return (as_text s)
       | inl e => Raise e
       end
     else Return (as_bytes content))
  /\ requests (trace_of run)
     = [Call (head_object (s3_bucket (config self)) file_key)
          (inr {| ContentLength := Some (Z.of_nat (length content)) |});
        Call (get_object (s3_bucket (config self)) file_key None) (inr content);
        Call (delete_object (s3_bucket (config self)) file_key)
          (fst (respond (delete_object (s3_bucket (config self)) file_key) w))].
Proof.
  intros (Hhead & Hget & _) Hsmall run. subst run.
  assert (Hbody :
    try_except
      (file_size <- _get_s3_file_size self file_key ;;
       if MAX_READ_FILE_SIZE limits <=? file_size then
         call (get_object (s3_bucket (config self)) file_key
                 (Some (0, MAX_READ_FILE_SIZE limits - 1))) ;;
         raise (OutputLimitExceededError (MAX_READ_FILE_SIZE_STR limits) None)
       else
         call (get_object (s3_bucket (config self)) file_key None))
      (fun e =>
         if is_NoSuchKey e || is_KeyError e then
           Some (raise (FileNotFoundError
                          ("File " +:+ file +:+ " does not exist in S3 bucket.")))
         else None) w
    = (Return content, w,
       [Call (head_object (s3_bucket (config self)) file_key)
          (inr {| ContentLength := Some (Z.of_nat (length content)) |});
        Call (get_object (s3_bucket (config self)) file_key None) (inr content)])).
  { apply try_except_Return.
    erewrite bind_Return by (rewrite (get_s3_file_size_run _ _ _ _ _ Hhead); reflexivity).
    simpl.
    destruct (Z.leb_spec (MAX_READ_FILE_SIZE limits) (Z.of_nat (length content))); [lia|].
    rewrite (call_Return _ _ _ _ Hget). reflexivity. }
  unfold read_file_download. erewrite bind_Return by exact Hbody.
  unfold _delete_s3_object, try_except, bind, call, log, emit, lift, ret, raise,
    outcome_of, trace_of.
  destruct (respond (delete_object (s3_bucket (config self)) file_key) w)
    as [[e|[]] w1]; simpl;
    (destruct text; [destruct (decode_utf8 content)|]); split; reflexivity.
Qed.

(** X20: when the store reports the uploaded object missing, the download
    of [read_file] raises [FileNotFoundError] naming the file, and asks for
    no deletion. *)
Theorem read_file_download_missing (file file_key : string) (text : bool) (w : W) :
  reports_missing w (s3_bucket (config self)) file_key (MAX_READ_FILE_SIZE limits) ->
  let run := read_file_download limits self file file_key text w in
  outcome_of run
  = Raise (FileNotFoundError ("File " +:+ file +:+ " does not exist in S3 bucket."))
  /\ forallb not_deletion (trace_of run) = true.
Proof.
  intros Hmissing run. subst run. unfold reports_missing in Hmissing.
  unfold read_file_download, _get_s3_file_size, try_except, bind, call, log, emit,
    lift, ret, raise, outcome_of, trace_of.
  destruct (respond (head_object (s3_bucket (config self)) file_key) w)
    as [[e|probe] w1].
  - destruct Hmissing as [-> | ->]; split; reflexivity.
  - simpl in *.
    destruct (MAX_READ_FILE_SIZE limits <=? default 0 (ContentLength probe));
      destruct (respond (get_object _ file_key _) w1) as [[e|body] w2];
      simpl in Hmissing; try discriminate;
      injection Hmissing as ->; split; reflexivity.
Qed.
End DownloadProperties.

Section PrefixProperties.
Context {W : Type} `{World W}.
Variable self : Ec2SandboxEnvironment.

(** X12: [_delete_s3_prefix] lists the prefix once and deletes, in one
    call, exactly the keys of that one listing; it asks for no further
    page, and makes no deletion call when the listing fails, has no
    [Contents] or has none in it. *)
Theorem delete_prefix_one_page (prefix : string) (w : W) :
  let asked := requests (trace_of (_delete_s3_prefix self prefix w)) in
  match respond (list_objects_v2 (s3_bucket (config self)) prefix) w with
  | (inr page, w1) =>
      match Contents page with
      | Some (key :: keys) =>
          asked = [Call (list_objects_v2 (s3_bucket (config self)) prefix) (inr page);
                   Call (delete_objects (s3_bucket (config self)) (key :: keys))
                     (fst (respond (delete_objects (s3_bucket (config self)) (key :: keys))
                             w1))]
      | _ => asked = [Call (list_objects_v2 (s3_bucket (config self)) prefix) (inr page)]
      end
  | (inl e, _) => asked = [Call (list_objects_v2 (s3_bucket (config self)) prefix) (inl e)]
  end.
Proof.
  simpl. unfold _delete_s3_prefix, try_except, bind, call, log, emit, ret, trace_of.
  destruct (respond (list_objects_v2 (s3_bucket (config self)) prefix) w)
    as [[e|[[[|key keys]|]]] w1]; simpl; try reflexivity.
  destruct (respond (delete_objects _ (key :: keys)) w1) as [[e|[]] w2]; reflexivity.
Qed.
End PrefixProperties.

Lemma read_file_download_returns_witness :
  let run := read_file_download inspect_ai_limits test_env "notes.txt" notes_key true
               stocked in
  outcome_of run = Return (as_text "abcdef")
  /\ requests (trace_of run)
     = [Call (head_object "fake-bucket" notes_key) (inr {| ContentLength := Some 6 |});
        Call (get_object "fake-bucket" notes_key None) (inr (bytes_of "abcdef"));
        Call (delete_object "fake-bucket" notes_key) (inr tt)].
Proof.
  destruct (read_file_download_returns inspect_ai_limits test_env "notes.txt" notes_key
              true stocked (bytes_of "abcdef")) as [Houtcome Hasked].
  - apply scripted_holds_object. reflexivity.
  - reflexivity.
  - split; [rewrite Houtcome|rewrite Hasked]; reflexivity.
Defined.

Lemma read_file_download_missing_witness :
  let run := read_file_download inspect_ai_limits test_env "notes.txt" notes_key true
               quiet in
  outcome_of run
  = Raise (FileNotFoundError "File notes.txt does not exist in S3 bucket.")
  /\ forallb not_deletion (trace_of run) = true.
Proof.
  apply (read_file_download_missing inspect_ai_limits test_env "notes.txt" notes_key true
           quiet).
  apply scripted_reports_missing. reflexivity.
Defined.

(** ** [cli_cleanup] without an id *)

Section BulkCleanup.
Context {W : Type} `{World W}.

(** X21: [cli_cleanup] with no id makes at most one [terminate_instances]
    call, and that call names every instance the listing returned, each
    once per record and in the order listed; no call is made for an empty
    listing. *)
Theorem cli_cleanup_terminates_all_listed (w : W) :
  let run := cli_cleanup None w in
  terminations (trace_of run) = []
  \/ exists response,
       In (Call (describe_instances cleanup_filters) (inr response)) (trace_of run)
       /\ concat (map Instances response) <> []
       /\ terminations (trace_of run)
          = [map InstanceId (concat (map Instances response))].
Proof.
  simpl. unfold cli_cleanup, bind, call, print, emit, ret, trace_of.
  destruct (respond (describe_instances cleanup_filters) w) as [[e|response] w1];
    [left; reflexivity|].
  destruct (concat (map Instances response)) as [|i instances] eqn:Hlisted;
    [left; reflexivity|].
  simpl. answer_requests; try (left; reflexivity);
    right; exists response; rewrite Hlisted;
    (split; [left; reflexivity|]); (split; [discriminate|reflexivity]).
Qed.

(** X22: when the prompt of [cli_cleanup] is answered with no, nothing is
    terminated: the run prints [Cancelled.] and returns. *)
Theorem cli_cleanup_declined_terminates_nothing (w : W) :
  let run := cli_cleanup None w in
  prompts (trace_of run) = [inr false] ->
  terminations (trace_of run) = []
  /\ outcome_of run = Return tt
  /\ In (Printed (Text "Cancelled.")) (trace_of run).
Proof.
  simpl. unfold cli_cleanup, bind, call, print, emit, ret, trace_of, outcome_of.
  destruct (respond (describe_instances cleanup_filters) w) as [[e|response] w1];
    [discriminate|].
  destruct (concat (map Instances response)) as [|i instances];
    [discriminate|].
  simpl. answer_requests; try discriminate.
  intros _. simpl. auto 10.
Qed.

(** X23: [cli_cleanup] asks for confirmation only from a terminal, and
    neither under CI nor under pytest: a run that prompted has seen
    [stdin] be a terminal and both [CI] and [PYTEST_CURRENT_TEST] absent
    from the environment. *)
Theorem cli_cleanup_prompts_only_at_a_terminal (w : W) :
  let run := cli_cleanup None w in
  prompts (trace_of run) <> [] ->
  In (Call stdin_isatty (inr true)) (trace_of run)
  /\ In (Call (environ_contains "CI") (inr false)) (trace_of run)
  /\ In (Call (environ_contains "PYTEST_CURRENT_TEST") (inr false)) (trace_of run).
Proof.
  simpl. unfold cli_cleanup, bind, call, print, emit, ret, trace_of.
  destruct (respond (describe_instances cleanup_filters) w) as [[e|response] w1];
    [simpl; congruence|].
  destruct (concat (map Instances response)) as [|i instances];
    [simpl; congruence|].
  simpl. answer_requests; try congruence; intros _; simpl; auto 10.
Qed.

(** X24: away from a terminal, or under CI or pytest, [cli_cleanup]
    terminates without asking: a run that found instances, did not prompt
    and returned has made its one [terminate_instances] call. *)
Theorem cli_cleanup_unattended_terminates (w : W) response w1 :
  let run := cli_cleanup None w in
  respond (describe_instances cleanup_filters) w = (inr response, w1) ->
  concat (map Instances response) <> [] ->
  prompts (trace_of run) = [] ->
  outcome_of run = Return tt ->
  In (Call (terminate_instances (map InstanceId (concat (map Instances response))))
        (inr tt)) (trace_of run).
Proof.
  simpl. unfold cli_cleanup, bind, call, print, emit, ret, trace_of, outcome_of.
  intros ->.
  destruct (concat (map Instances response)) as [|i instances]; [congruence|].
  intros _. simpl. answer_requests; intros Hprompts Houtcome;
    try discriminate Hprompts; try discriminate Houtcome; simpl; auto 10.
Qed.
End BulkCleanup.

Lemma cli_cleanup_declined_terminates_nothing_witness :
  let run := cli_cleanup None (at_console true false []) in
  terminations (trace_of run) = []
  /\ outcome_of run = Return tt
  /\ In (Printed (Text "Cancelled.")) (trace_of run).
Proof.
  apply (cli_cleanup_declined_terminates_nothing (at_console true false [])).
  reflexivity.
Defined.

Lemma cli_cleanup_prompts_only_at_a_terminal_witness :
  let run := cli_cleanup None (at_console true true []) in
  In (Call stdin_isatty (inr true)) (trace_of run)
  /\ In (Call (environ_contains "CI") (inr false)) (trace_of run)
  /\ In (Call (environ_contains "PYTEST_CURRENT_TEST") (inr false)) (trace_of run).
Proof.
  apply (cli_cleanup_prompts_only_at_a_terminal (at_console true true [])).
  discriminate.
Defined.

Lemma cli_cleanup_unattended_terminates_witness :
  In (Call (terminate_instances ["i-0abc"; "i-0def"]) (inr tt))
     (trace_of (cli_cleanup None (at_console true false [("CI", "1")]))).
Proof.
  apply (cli_cleanup_unattended_terminates (at_console true false [("CI", "1")])
           leftovers (at_console true false [("CI", "1")]));
    [reflexivity|discriminate|reflexivity|reflexivity].
Defined.

(** ** [sample_cleanup] *)

Section SampleCleanupProperties.
Context {W : Type} `{World W}.

Lemma terminate_each_in_order (environments : list (string * SandboxEnvironment)) (w : W) :
  let run := terminate_each (map snd environments) w in
  exists later,
    own_instances environments = terminations (trace_of run) ++ later
    /\ (outcome_of run = Return tt -> later = [])
    /\ forall e, outcome_of run = Raise e ->
         exists before ids,
           trace_of run = before ++ [Call (terminate_instances ids) (inl e)].
Proof.
  simpl. revert w.
  induction environments as [|[name [env|]] rest IH]; intros w; simpl.
  - exists []. split; [reflexivity|]. split; [reflexivity|discriminate].
  - unfold bind, call.
    destruct (respond (terminate_instances [instance_id env]) w) as [[e|[]] w1].
    + exists (own_instances rest). simpl. split; [reflexivity|].
      unfold outcome_of, trace_of. simpl. split; [discriminate|].
      intros e' [= <-]. exists [], [instance_id env]. reflexivity.
    + destruct (IH w1) as (later & Hmine & Hdone & Hfailed). exists later.
      unfold trace_of, outcome_of in *.
      destruct (terminate_each (map snd rest) w1) as [[o w2] t]. simpl in *.
      unfold own_instances in *. simpl. rewrite Hmine.
      split; [reflexivity|]. split; [exact Hdone|].
      intros e He. destruct (Hfailed e He) as (before & ids & ->).
      exists (Call (terminate_instances [instance_id env]) (inr tt) :: before), ids.
      reflexivity.
  - apply IH.
Qed.

(** X25: [sample_cleanup] terminates the instances of the environments of
    this provider one call per instance, in the order of the dictionary,
    and skips the environments of other classes; it stops at the first call
    that fails, whose error it raises, leaving the later instances
    untouched; when it returns, every instance has had its call; and an
    interrupted sample makes no call at all. *)
Theorem sample_cleanup_terminates_in_order (task_name : string)
    (config : option Ec2SandboxEnvironmentConfig)
    (environments : list (string * SandboxEnvironment)) (interrupted : bool) (w : W) :
  let run := sample_cleanup task_name config environments interrupted w in
  if interrupted then run = (Return tt, w, [])
  else
    exists later,
      own_instances environments = terminations (trace_of run) ++ later
      /\ (outcome_of run = Return tt -> later = [])
      /\ forall e, outcome_of run = Raise e ->
           exists before ids,
             trace_of run = before ++ [Call (terminate_instances ids) (inl e)].
Proof.
  unfold sample_cleanup. destruct interrupted; [reflexivity|].
  apply terminate_each_in_order.
Qed.

(** X26: when the control plane takes every termination, [sample_cleanup]
    of a sample that was not interrupted returns, having made exactly one
    call per instance of this provider. *)
Theorem sample_cleanup_terminates_every_instance (task_name : string)
    (config : option Ec2SandboxEnvironmentConfig)
    (environments : list (string * SandboxEnvironment)) (w : W) :
  (forall ids w0, fst (respond (terminate_instances ids) w0) = inr tt) ->
  let run := sample_cleanup task_name config environments false w in
  outcome_of run = Return tt
  /\ terminations (trace_of run) = own_instances environments.
Proof.
  intros Htaken. unfold sample_cleanup. simpl. revert w.
  induction environments as [|[name [env|]] rest IH]; intros w; simpl.
  - split; reflexivity.
  - unfold bind, call.
    pose proof (Htaken [instance_id env] w) as Hreply.
    destruct (respond (terminate_instances [instance_id env]) w) as [reply w1].
    simpl in Hreply. subst reply.
    destruct (IH w1) as [Hdone Hcalls]. unfold outcome_of, trace_of in *.
    destruct (terminate_each (map snd rest) w1) as [[o w2] t]. simpl in *.
    split; [exact Hdone|]. unfold own_instances in *. simpl. rewrite Hcalls. reflexivity.
  - apply IH.
Qed.
End SampleCleanupProperties.

Lemma sample_cleanup_terminates_every_instance_witness :
  let run := sample_cleanup "demo" None
               [("default", Ec2 test_env); ("proxy", Foreign)] false quiet in
  outcome_of run = Return tt
  /\ terminations (trace_of run) = [["i-0abc"]].
Proof.
  apply (sample_cleanup_terminates_every_instance "demo" None
           [("default", Ec2 test_env); ("proxy", Foreign)] quiet).
  intros ids w0. reflexivity.
Defined.
